(** * flow-backend: order lifecycle of [main.py]

    A shallow embedding of the payment backend: the [orders] table and its
    four statements, the request signing of the gateway client, and the three
    handlers [pay_create], [flow_confirmation] and [download].

    Conventions of the embedding.
    - A Python [str] is a [string]; a character is a code point below 256
      (the Latin-1 range), on which [str.strip], [str.lower] and the regex
      class [\s] are written out as CPython defines them.
    - What a handler reads from outside (random bytes of [uuid4], the clock,
      the gateway's reply) is an argument of the handler; what it does to
      the outside (rows written, requests sent, background tasks queued) is
      part of its result.
    - A raised exception is the [inl] of a sum; the ASGI layer turns it into
      an HTTP response in [respond]. *)

From Stdlib Require Import ZArith List String Ascii Bool Lia.
From Stdlib Require Import Permutation Sorted.
Import ListNotations.

Local Open Scope string_scope.
Local Open Scope list_scope.
Local Open Scope Z_scope.

Set Implicit Arguments.
Local Set Warnings "-register-all".

(** ** Characters and strings *)

Module PyStr.

Definition code (c : ascii) : Z := Z.of_N (N_of_ascii c).

Definition chr (z : Z) : ascii := ascii_of_N (Z.to_N z).

Definition chars (s : string) : list ascii := list_ascii_of_string s.

Definition str (l : list ascii) : string := string_of_list_ascii l.

(** [str.isspace] on one character, which is also the regex class [\s] of a
    [str] pattern: TAB..CR, FS..US, space, NEL and NBSP. *)
Definition is_space (c : ascii) : bool :=
  let n := code c in
  ((9 <=? n) && (n <=? 13)) || ((28 <=? n) && (n <=? 32))
  || (n =? 133) || (n =? 160).

(** [str.lower] on one character: A..Z, and the Latin-1 capitals
    U+00C0..U+00DE except the multiplication sign U+00D7. *)
Definition lower_char (c : ascii) : ascii :=
  let n := code c in
  if ((65 <=? n) && (n <=? 90))
     || ((192 <=? n) && (n <=? 222) && negb (n =? 215))
  then chr (n + 32) else c.

Fixpoint lstrip_chars (l : list ascii) : list ascii :=
  match l with
  | c :: l' => if is_space c then lstrip_chars l' else l
  | [] => []
  end.

Definition rstrip_chars (l : list ascii) : list ascii :=
  rev (lstrip_chars (rev l)).

Definition strip (s : string) : string :=
  str (rstrip_chars (lstrip_chars (chars s))).

Definition lower (s : string) : string :=
  str (map lower_char (chars s)).

(** Truth value of a [str]: false exactly for the empty string. *)
Definition truthy (s : string) : bool :=
  match s with EmptyString => false | _ => true end.

End PyStr.

(** ** Regular expressions

    The fragment of [re] that [EMAIL_REGEX] uses, matched by derivatives. *)

Module Re.

Inductive regex : Type :=
| Void : regex
| Eps : regex
| Class : (ascii -> bool) -> regex
| Cat : regex -> regex -> regex
| Alt : regex -> regex -> regex
| Star : regex -> regex.

Definition Plus (r : regex) : regex := Cat r (Star r).

Definition Lit (c : ascii) : regex := Class (Ascii.eqb c).

Fixpoint nullable (r : regex) : bool :=
  match r with
  | Void => false
  | Eps => true
  | Class _ => false
  | Cat r1 r2 => nullable r1 && nullable r2
  | Alt r1 r2 => nullable r1 || nullable r2
  | Star _ => true
  end.

Fixpoint deriv (c : ascii) (r : regex) : regex :=
  match r with
  | Void => Void
  | Eps => Void
  | Class p => if p c then Eps else Void
  | Cat r1 r2 =>
      if nullable r1
      then Alt (Cat (deriv c r1) r2) (deriv c r2)
      else Cat (deriv c r1) r2
  | Alt r1 r2 => Alt (deriv c r1) (deriv c r2)
  | Star r1 => Cat (deriv c r1) (Star r1)
  end.

(** Does [r] match the whole of [s]? *)
Fixpoint fullmatch (r : regex) (s : list ascii) : bool :=
  match s with
  | [] => nullable r
  | c :: s' => fullmatch (deriv c r) s'
  end.

(** The strings a regex denotes. *)
Inductive lang : regex -> list ascii -> Prop :=
| lang_eps : lang Eps []
| lang_class p c : p c = true -> lang (Class p) [c]
| lang_cat r1 r2 s1 s2 : lang r1 s1 -> lang r2 s2 -> lang (Cat r1 r2) (s1 ++ s2)
| lang_alt_l r1 r2 s : lang r1 s -> lang (Alt r1 r2) s
| lang_alt_r r1 r2 s : lang r2 s -> lang (Alt r1 r2) s
| lang_star_nil r : lang (Star r) []
| lang_star_app r s1 s2 :
    lang r s1 -> lang (Star r) s2 -> lang (Star r) (s1 ++ s2).

End Re.

(** ** Utils (main.py, lines 61-64) *)

(** The class [[^@\s]]. *)
Definition email_atom (c : ascii) : bool :=
  negb (Ascii.eqb c "@" || PyStr.is_space c).

Definition newline : ascii := PyStr.chr 10.

(** [EMAIL_REGEX = re.compile(r"^[^@\s]+@[^@\s]+\.[^@\s]+$")], as [match]
    applies it: [^] pins the start, and [$] (no MULTILINE flag) accepts the
    end of the string or a newline that is its last character. *)
Definition EMAIL_REGEX : Re.regex :=
  Re.Cat (Re.Plus (Re.Class email_atom))
    (Re.Cat (Re.Lit "@")
       (Re.Cat (Re.Plus (Re.Class email_atom))
          (Re.Cat (Re.Lit ".")
             (Re.Cat (Re.Plus (Re.Class email_atom))
                (Re.Alt Re.Eps (Re.Lit newline)))))).

Definition is_valid_email (email : string) : bool :=
  PyStr.truthy email && Re.fullmatch EMAIL_REGEX (PyStr.chars email).

(** ** Python values

    What [resp.json()] and a JSON request body can hold.  Numbers with a
    fraction or an exponent (Python floats) are not represented. *)

Module Py.

Inductive exn : Type :=
| HTTPException (status_code : Z) (detail : string)
| AttributeError
| KeyError (key : string)
| TypeError
| ValueError
| OverflowError
| IntegrityError
| ProgrammingError
| RequestError.

Inductive value : Type :=
| PNone : value
| PBool : bool -> value
| PInt : Z -> value
| PStr : string -> value
| PList : list value -> value
| PDict : list (string * value) -> value.

(** A dict keeps its items in insertion order, one per key. *)
Definition dict : Type := list (string * value).

Definition result (A : Type) : Type := (exn + A)%type.

Definition ret {A} (a : A) : result A := inr a.

Definition raise {A} (e : exn) : result A := inl e.

Definition bind {A B} (m : result A) (k : A -> result B) : result B :=
  match m with
  | inl e => inl e
  | inr a => k a
  end.

(** [bool(v)] *)
Definition truthy (v : value) : bool :=
  match v with
  | PNone => false
  | PBool b => b
  | PInt z => negb (z =? 0)
  | PStr s => PyStr.truthy s
  | PList l => match l with [] => false | _ => true end
  | PDict d => match d with [] => false | _ => true end
  end.

(** [a or b] *)
Definition or_else (a b : value) : value := if truthy a then a else b.

Fixpoint get (d : dict) (k : string) : option value :=
  match d with
  | [] => None
  | (k', v) :: d' => if String.eqb k' k then Some v else get d' k
  end.

(** [d.get(k, default)] *)
Definition get_default (d : dict) (k : string) (default : value) : value :=
  match get d k with
  | Some v => v
  | None => default
  end.

(** [d[k] = v]: an existing key keeps its place. *)
Fixpoint set (d : dict) (k : string) (v : value) : dict :=
  match d with
  | [] => [(k, v)]
  | (k', v') :: d' =>
      if String.eqb k' k then (k, v) :: d' else (k', v') :: set d' k v
  end.

(** [v[k]] with a [str] key: a dict yields the item or [KeyError]; a list
    or a str refuses a str index, [None], a bool and an int refuse any. *)
Definition subscript (v : value) (k : string) : result value :=
  match v with
  | PDict d =>
      match get d k with
      | Some x => ret x
      | None => raise (KeyError k)
      end
  | _ => raise TypeError
  end.

Definition hex_digit (n : Z) : ascii :=
  if n <? 10 then PyStr.chr (48 + n) else PyStr.chr (87 + n).

(** [n] lowercase hex digits of [z], most significant first. *)
Fixpoint hex (n : nat) (z : Z) : list ascii :=
  match n with
  | O => []
  | S n' => hex n' (Z.shiftr z 4) ++ [hex_digit (Z.land z 15)]
  end.

Fixpoint dec_digits (fuel : nat) (z : Z) (acc : list ascii) : list ascii :=
  match fuel with
  | O => acc
  | S fuel' =>
      let acc' := PyStr.chr (48 + z mod 10) :: acc in
      if z <? 10 then acc' else dec_digits fuel' (z / 10) acc'
  end.

(** [str(z)] for an int. *)
Definition dec (z : Z) : string :=
  let digits := dec_digits (S (Z.to_nat (Z.log2 (Z.abs z)))) (Z.abs z) [] in
  PyStr.str (if z <? 0 then "-"%char :: digits else digits).

Definition contains (c : ascii) (l : list ascii) : bool :=
  existsb (Ascii.eqb c) l.

(** One character of [repr] of a str quoted by [q]. *)
Definition repr_char (q c : ascii) : list ascii :=
  let n := PyStr.code c in
  if Ascii.eqb c q || (n =? 92) then ["\"%char; c]
  else if n =? 9 then ["\"; "t"]%char
  else if n =? 10 then ["\"; "n"]%char
  else if n =? 13 then ["\"; "r"]%char
  else if (n <? 32) || ((127 <=? n) && (n <=? 160)) || (n =? 173)
       then ["\"; "x"]%char ++ hex 2 n
  else [c].

Definition dquote : ascii := PyStr.chr 34.

(** [repr] of a str: single quotes, unless it holds one and no double. *)
Definition repr_str (s : string) : string :=
  let l := PyStr.chars s in
  let q := if contains "'" l && negb (contains dquote l)
           then dquote else "'"%char in
  PyStr.str (q :: flat_map (repr_char q) l ++ [q]).

Fixpoint join (sep : string) (l : list string) : string :=
  match l with
  | [] => ""
  | [s] => s
  | s :: l' => s ++ sep ++ join sep l'
  end.

Fixpoint repr (v : value) : string :=
  match v with
  | PNone => "None"
  | PBool true => "True"
  | PBool false => "False"
  | PInt z => dec z
  | PStr s => repr_str s
  | PList l => "[" ++ join ", " (map repr l) ++ "]"
  | PDict d =>
      "{" ++ join ", "
               (map (fun kv : string * value => match kv with
                               | (k, x) => (repr_str k ++ ": " ++ repr x)%string
                               end) d) ++ "}"
  end.

(** [str(v)], which is what an f-string field and [urlencode] apply. *)
Definition to_str (v : value) : string :=
  match v with
  | PStr s => s
  | _ => repr v
  end.

(** The blanks [int] skips around a numeral: TAB..CR, space, NEL, NBSP. *)
Definition is_int_space (c : ascii) : bool :=
  let n := PyStr.code c in
  ((9 <=? n) && (n <=? 13)) || (n =? 32) || (n =? 133) || (n =? 160).

Fixpoint skip_int_space (l : list ascii) : list ascii :=
  match l with
  | c :: l' => if is_int_space c then skip_int_space l' else l
  | [] => []
  end.

Definition is_digit (c : ascii) : bool :=
  (48 <=? PyStr.code c) && (PyStr.code c <=? 57).

(** Decimal digits, single underscores allowed between two digits; the
    result is the value and the number of digits. *)
Fixpoint parse_digits (l : list ascii) (acc : Z) (count : nat)
    (after_digit : bool) : option (Z * nat) :=
  match l with
  | [] => if after_digit then Some (acc, count) else None
  | c :: l' =>
      if is_digit c
      then parse_digits l' (10 * acc + (PyStr.code c - 48)) (S count) true
      else if Ascii.eqb c "_" && after_digit
           then parse_digits l' acc count false
           else None
  end.

(** [sys.int_max_str_digits] *)
Definition int_max_str_digits : nat := 4300.

(** [int(s)] for a str, base 10. *)
Definition int_of_str (s : string) : result Z :=
  let body := rev (skip_int_space (rev (skip_int_space (PyStr.chars s)))) in
  let (negative, digits) :=
    match body with
    | c :: l' =>
        if Ascii.eqb c "-" then (true, l')
        else if Ascii.eqb c "+" then (false, l')
        else (false, body)
    | [] => (false, [])
    end in
  match parse_digits digits 0 0 false with
  | Some (z, count) =>
      if (int_max_str_digits <? count)%nat then raise ValueError
      else ret (if negative then - z else z)
  | None => raise ValueError
  end.

(** [int(v)] *)
Definition to_int (v : value) : result Z :=
  match v with
  | PInt z => ret z
  | PBool b => ret (if b then 1 else 0)
  | PStr s => int_of_str s
  | PNone | PList _ | PDict _ => raise TypeError
  end.

End Py.

Notation "x <- m ;; k" := (Py.bind m (fun x => k))
  (at level 61, m at next level, right associativity).

(** ** Bytes, SHA-256 and HMAC ([hashlib], [hmac]) *)

Module Hash.

(** [s.encode()]: UTF-8, one byte below U+0080 and two from there on.
    The characters of a string here are all below U+0100, which UTF-8
    encodes; Python's [encode] raises [UnicodeEncodeError] on a lone
    surrogate, a character these strings do not hold. *)
Definition encode (s : string) : list Z :=
  flat_map (fun c => let n := PyStr.code c in
                     if n <? 128 then [n]
                     else [Z.lor 192 (Z.shiftr n 6); Z.lor 128 (Z.land n 63)])
           (PyStr.chars s).

Definition w32 (x : Z) : Z := Z.land x 0xffffffff.

Definition add32 (x y : Z) : Z := w32 (x + y).

Definition rotr (n x : Z) : Z :=
  Z.lor (Z.shiftr x n) (w32 (Z.shiftl x (32 - n))).

Definition ch (x y z : Z) : Z :=
  Z.lxor (Z.land x y) (Z.land (Z.lxor x 0xffffffff) z).

Definition maj (x y z : Z) : Z :=
  Z.lxor (Z.lxor (Z.land x y) (Z.land x z)) (Z.land y z).

Definition bsig0 (x : Z) : Z :=
  Z.lxor (Z.lxor (rotr 2 x) (rotr 13 x)) (rotr 22 x).

Definition bsig1 (x : Z) : Z :=
  Z.lxor (Z.lxor (rotr 6 x) (rotr 11 x)) (rotr 25 x).

Definition ssig0 (x : Z) : Z :=
  Z.lxor (Z.lxor (rotr 7 x) (rotr 18 x)) (Z.shiftr x 3).

Definition ssig1 (x : Z) : Z :=
  Z.lxor (Z.lxor (rotr 17 x) (rotr 19 x)) (Z.shiftr x 10).

(** The first sixty-four primes. *)
Definition primes : list Z :=
  [ 2; 3; 5; 7; 11; 13; 17; 19; 23; 29; 31; 37;
    41; 43; 47; 53; 59; 61; 67; 71; 73; 79; 83; 89;
    97; 101; 103; 107; 109; 113; 127; 131; 137; 139; 149; 151;
    157; 163; 167; 173; 179; 181; 191; 193; 197; 199; 211; 223;
    227; 229; 233; 239; 241; 251; 257; 263; 269; 271; 277; 281;
    283; 293; 307; 311 ].

(** The integer cube root of [x], bit by bit from bit [n - 1] down. *)
Fixpoint cube_root (n : nat) (x r : Z) : Z :=
  match n with
  | O => r
  | S n' =>
      let c := r + 2 ^ Z.of_nat n' in
      cube_root n' x (if c * c * c <=? x then c else r)
  end.

(** The round constants: the first 32 bits of the fractional parts of the
    cube roots of the primes. *)
Definition K : list Z :=
  map (fun p => w32 (cube_root 40 (p * 2 ^ 96) 0)) primes.

(** [n] bytes of [z], most significant first. *)
Fixpoint be_bytes (n : nat) (z : Z) : list Z :=
  match n with
  | O => []
  | S n' => be_bytes n' (Z.shiftr z 8) ++ [Z.land z 255]
  end.

(** The message, a 1 bit, zeros up to 56 mod 64, the bit length on 8 bytes. *)
Definition pad (msg : list Z) : list Z :=
  let len := Z.of_nat (List.length msg) in
  let zeros := Z.to_nat ((55 - len) mod 64) in
  msg ++ [128] ++ repeat 0 zeros ++ be_bytes 8 (8 * len).

Fixpoint words (n : nat) (bytes : list Z) : list Z :=
  match n, bytes with
  | S n', b0 :: b1 :: b2 :: b3 :: rest =>
      (Z.shiftl b0 24 + Z.shiftl b1 16 + Z.shiftl b2 8 + b3) :: words n' rest
  | _, _ => []
  end.

(** Extends the schedule, kept most recent first ([w] holds W[t-1], W[t-2],
    ...), by [n] words. *)
Fixpoint schedule (n : nat) (w : list Z) : list Z :=
  match n with
  | O => w
  | S n' =>
      let wt := add32 (add32 (ssig1 (nth 1 w 0)) (nth 6 w 0))
                      (add32 (ssig0 (nth 14 w 0)) (nth 15 w 0)) in
      schedule n' (wt :: w)
  end.

Definition state : Type := (Z * Z * Z * Z * Z * Z * Z * Z)%type.

(** The initial hash value: the first 32 bits of the fractional parts of
    the square roots of the first eight primes. *)
Definition H0 : state :=
  match map (fun p => w32 (Z.sqrt (p * 2 ^ 64))) (firstn 8 primes) with
  | [a; b; c; d; e; f; g; h] => (a, b, c, d, e, f, g, h)
  | _ => (0, 0, 0, 0, 0, 0, 0, 0)
  end.

Definition round (st : state) (kw : Z * Z) : state :=
  let '(a, b, c, d, e, f, g, h) := st in
  let t1 := add32 (add32 (add32 h (bsig1 e)) (add32 (ch e f g) (fst kw)))
                  (snd kw) in
  let t2 := add32 (bsig0 a) (maj a b c) in
  (add32 t1 t2, a, b, c, add32 d t1, e, f, g).

Definition compress (hs : state) (block : list Z) : state :=
  let w := rev (schedule 48 (rev (words 16 block))) in
  let '(a, b, c, d, e, f, g, h) := fold_left round (combine K w) hs in
  let '(a0, b0, c0, d0, e0, f0, g0, h0) := hs in
  (add32 a0 a, add32 b0 b, add32 c0 c, add32 d0 d,
   add32 e0 e, add32 f0 f, add32 g0 g, add32 h0 h).

Fixpoint blocks (n : nat) (hs : state) (bytes : list Z) : state :=
  match n with
  | O => hs
  | S n' => blocks n' (compress hs (firstn 64 bytes)) (skipn 64 bytes)
  end.

(** [hashlib.sha256(msg).digest()] *)
Definition sha256 (msg : list Z) : list Z :=
  let padded := pad msg in
  let '(a, b, c, d, e, f, g, h) :=
    blocks (List.length padded / 64)%nat H0 padded in
  flat_map (be_bytes 4) [a; b; c; d; e; f; g; h].

(** [hmac.new(key, msg, hashlib.sha256).digest()] (RFC 2104, block of 64). *)
Definition hmac_sha256 (key msg : list Z) : list Z :=
  let key' := if (64 <? List.length key)%nat then sha256 key else key in
  let block := key' ++ repeat 0 (64 - List.length key')%nat in
  sha256 (map (Z.lxor 0x5c) block
          ++ sha256 (map (Z.lxor 0x36) block ++ msg)).

(** [.hexdigest()] *)
Definition hexdigest (digest : list Z) : string :=
  PyStr.str (flat_map (Py.hex 2) digest).

End Hash.

(** ** [uuid] and [urllib.parse] *)

Module Uuid.

(** [uuid.uuid4()] as its 128-bit integer, from the integer of the sixteen
    bytes [os.urandom] gave: the variant bits become 10, the version 4. *)
Definition uuid4 (random : Z) : Z :=
  let i := random mod 2 ^ 128 in
  let i := Z.land i (Z.lnot (Z.shiftl 0xc000 48)) in
  let i := Z.lor i (Z.shiftl 0x8000 48) in
  let i := Z.land i (Z.lnot (Z.shiftl 0xf000 64)) in
  Z.lor i (Z.shiftl 4 76).

(** [u.hex] *)
Definition hex (u : Z) : string := PyStr.str (Py.hex 32 u).

Definition slice (i j : nat) (l : list ascii) : list ascii :=
  firstn (j - i) (skipn i l).

(** [str(u)] *)
Definition to_str (u : Z) : string :=
  let h := Py.hex 32 u in
  PyStr.str (slice 0 8 h ++ ["-"%char] ++ slice 8 12 h ++ ["-"%char]
             ++ slice 12 16 h ++ ["-"%char] ++ slice 16 20 h ++ ["-"%char]
             ++ skipn 20 h).

End Uuid.

Module Url.

Definition hex_upper (n : Z) : ascii :=
  if n <? 10 then PyStr.chr (48 + n) else PyStr.chr (55 + n).

(** Letters, digits and [_.-~] are never quoted. *)
Definition always_safe (c : ascii) : bool :=
  let n := PyStr.code c in
  ((65 <=? n) && (n <=? 90)) || ((97 <=? n) && (n <=? 122))
  || ((48 <=? n) && (n <=? 57))
  || (n =? 95) || (n =? 46) || (n =? 45) || (n =? 126).

Definition quote_char (c : ascii) : list ascii :=
  if Ascii.eqb c " " then ["+"%char]
  else if always_safe c then [c]
  else flat_map (fun b => ["%"%char; hex_upper (Z.shiftr b 4);
                           hex_upper (Z.land b 15)])
                (Hash.encode (String c EmptyString)).

Definition quote_plus (s : string) : string :=
  PyStr.str (flat_map quote_char (PyStr.chars s)).

(** [urlencode(params)] for a dict. *)
Definition urlencode (params : Py.dict) : string :=
  Py.join "&"
    (map (fun kv : string * Py.value =>
            (quote_plus (fst kv) ++ "=" ++ quote_plus (Py.to_str (snd kv)))%string)
         params).

End Url.

(** ** Config (main.py, lines 36-56) *)

Record Config : Type := {
  FLOW_API_URL : string;
  FLOW_API_KEY : string;
  FLOW_SECRET_KEY : string;
  PUBLIC_BASE_URL : string;
  DOWNLOAD_BASE_URL : string;
  PRODUCT_FILE : string;
  PRODUCT_DRIVE_URL : string
}.

(** ** DB (main.py, lines 69-119) *)

Module Row.

(** One row of [orders]. [status] is 1 (pending) or 2 (paid). *)
Record t : Type := {
  id : string;
  created_at : string;
  email : string;
  commerce_order : string;
  flow_token : string;
  status : Z;
  download_token : option string;
  paid_at : option string
}.

End Row.

(** The table, oldest row first.  Rows are only ever appended, so this is
    also the order of the rowids and the order in which an index lookup
    meets rows of equal key. *)
Definition table : Type := list Row.t.

(** How [sqlite3] binds a Python value to a column of TEXT affinity: a str
    as it is, an int (a bool is one) that fits 64 bits as its decimal text,
    [None] as NULL; nothing else is supported. *)
Definition sqlite_text (v : Py.value) : Py.result (option string) :=
  match v with
  | Py.PNone => Py.ret None
  | Py.PStr s => Py.ret (Some s)
  | Py.PBool b => Py.ret (Some (if b then "1" else "0"))
  | Py.PInt z =>
      if (- 2 ^ 63 <=? z) && (z <? 2 ^ 63) then Py.ret (Some (Py.dec z))
      else Py.raise Py.OverflowError
  | Py.PList _ | Py.PDict _ => Py.raise Py.ProgrammingError
  end.

Definition has_id (order_id : string) (row : Row.t) : bool :=
  String.eqb (Row.id row) order_id.

(** [INSERT INTO orders VALUES (?,?,?,?,?,?,?,?)]: [id] is the primary key
    and [flow_token] is NOT NULL. [now] is [datetime.utcnow().isoformat()]. *)
Definition db_create_order (db : table) (order_id email commerce_order : string)
    (flow_token : Py.value) (now : string) : Py.result table :=
  bound <- sqlite_text flow_token ;;
  match bound with
  | None => Py.raise Py.IntegrityError
  | Some token =>
      if existsb (has_id order_id) db then Py.raise Py.IntegrityError
      else Py.ret (db ++ [ {| Row.id := order_id;
                              Row.created_at := now;
                              Row.email := email;
                              Row.commerce_order := commerce_order;
                              Row.flow_token := token;
                              Row.status := 1;
                              Row.download_token := None;
                              Row.paid_at := None |} ])
  end.

(** [WHERE flow_token=?]: a NULL parameter equals nothing. *)
Definition has_flow_token (flow_token : option string) (row : Row.t) : bool :=
  match flow_token with
  | Some t => String.eqb (Row.flow_token row) t
  | None => false
  end.

(** [SELECT id, email, status, download_token ... WHERE flow_token=?],
    [fetchone()]. *)
Definition db_get_by_flow_token (db : table) (flow_token : option string)
  : option (string * string * Z * option string) :=
  match find (has_flow_token flow_token) db with
  | Some row => Some (Row.id row, Row.email row, Row.status row,
                      Row.download_token row)
  | None => None
  end.

(** What [UPDATE orders SET status=2, download_token=?, paid_at=? WHERE
    flow_token=?] does to one row. *)
Definition mark_paid_row (flow_token : option string)
    (download_token now : string) (row : Row.t) : Row.t :=
  if has_flow_token flow_token row
  then {| Row.id := Row.id row;
          Row.created_at := Row.created_at row;
          Row.email := Row.email row;
          Row.commerce_order := Row.commerce_order row;
          Row.flow_token := Row.flow_token row;
          Row.status := 2;
          Row.download_token := Some download_token;
          Row.paid_at := Some now |}
  else row.

Definition db_mark_paid (db : table) (flow_token : option string)
    (download_token now : string) : table :=
  map (mark_paid_row flow_token download_token now) db.

Definition has_download_token (download_token : string) (row : Row.t) : bool :=
  match Row.download_token row with
  | Some t => String.eqb t download_token
  | None => false
  end.

(** [SELECT email, status FROM orders WHERE download_token=?], [fetchone()] *)
Definition db_get_by_download_token (db : table) (download_token : string)
  : option (string * Z) :=
  match find (has_download_token download_token) db with
  | Some row => Some (Row.email row, Row.status row)
  | None => None
  end.

(** ** Flow helpers (main.py, lines 124-144) *)

(** [sorted(params.items())]: the keys of a dict differ, so the keys alone
    order the pairs. *)
Fixpoint insert_item (kv : string * Py.value) (l : list (string * Py.value))
  : list (string * Py.value) :=
  match l with
  | [] => [kv]
  | kv' :: l' =>
      if String.leb (fst kv) (fst kv') then kv :: l
      else kv' :: insert_item kv l'
  end.

Definition sorted_items (params : Py.dict) : list (string * Py.value) :=
  fold_right insert_item [] params.

(** [raw] of [flow_sign]: the text that is signed. *)
Definition flow_sign_raw (params : Py.dict) : string :=
  String.concat ""
    (map (fun kv : string * Py.value => (fst kv ++ Py.to_str (snd kv))%string)
         (sorted_items params)).

Definition flow_sign (params : Py.dict) (secret : string) : string :=
  Hash.hexdigest
    (Hash.hmac_sha256 (Hash.encode secret) (Hash.encode (flow_sign_raw params))).

(** A request as handed to [requests]: [data] is the body of a POST,
    [params] the query of a GET. *)
Record http_request : Type := {
  http_method : string;
  url : string;
  data : string;
  params : Py.dict
}.

(** What the gateway answers, as [resp.json()] gives it: the parsed body,
    or the exception of a failed exchange or of a body that is not JSON. *)
Definition gateway_reply : Type := Py.result Py.value.

Section Gateway.

Variable cfg : Config.

(** The dict [flow_post] submits: [apiKey] is stored into the caller's
    dict first, then the signature of the dict as it then is. *)
Definition flow_post_params (params : Py.dict) : Py.dict :=
  let params := Py.set params "apiKey" (Py.PStr (FLOW_API_KEY cfg)) in
  Py.set params "s" (Py.PStr (flow_sign params (FLOW_SECRET_KEY cfg))).

Definition flow_post (endpoint : string) (params : Py.dict)
    (reply : gateway_reply) : http_request * Py.result Py.value :=
  let params := flow_post_params params in
  ({| http_method := "POST";
      url := FLOW_API_URL cfg ++ endpoint;
      data := Url.urlencode params;
      params := [] |},
   reply).

Definition flow_get_status_params (token : Py.value) : Py.dict :=
  let params := [("apiKey", Py.PStr (FLOW_API_KEY cfg)); ("token", token)] in
  Py.set params "s" (Py.PStr (flow_sign params (FLOW_SECRET_KEY cfg))).

Definition flow_get_status (token : Py.value) (reply : gateway_reply)
  : http_request * Py.result Py.value :=
  ({| http_method := "GET";
      url := FLOW_API_URL cfg ++ "/payment/getStatus";
      data := "";
      params := flow_get_status_params token |},
   reply).

End Gateway.

(** ** Endpoints (main.py, lines 187-248) *)

Inductive response : Type :=
| JSONResponse (status_code : Z) (content : Py.value)
| RedirectResponse (location : string)
| FileResponse (path : string) (media_type : string)
| PlainTextResponse (status_code : Z) (content : string).

(** A queued [background_tasks.add_task(send_email, ...)].  The em dash of
    the subject lies beyond U+00FF: that literal is kept in its UTF-8
    bytes, it is only handed on to the mail task. *)
Record email_task : Type := {
  to_email : string;
  subject : string;
  body : string
}.

(** What one call of a handler leaves behind: what it returned or raised,
    the table, the requests it sent to the gateway, the tasks it queued. *)
Record outcome : Type := {
  returned : Py.result response;
  orders : table;
  sent : list http_request;
  queued : list email_task
}.

(** What the client of the HTTP call receives: an [HTTPException] as its
    status and detail, any other exception as a bare 500. *)
Definition respond (r : Py.result response) : response :=
  match r with
  | inr resp => resp
  | inl (Py.HTTPException status_code detail) =>
      JSONResponse status_code (Py.PDict [("detail", Py.PStr detail)])
  | inl _ => PlainTextResponse 500 "Internal Server Error"
  end.

(** [s.strip().lower()] where [s] may be any value: only a str has
    [strip]. *)
Definition strip_lower (v : Py.value) : Py.result string :=
  match v with
  | Py.PStr s => Py.ret (PyStr.lower (PyStr.strip s))
  | _ => Py.raise Py.AttributeError
  end.

(** [status.get("status", 0)]: only a dict has [get]. *)
Definition get_method (v : Py.value) (k : string) (default : Py.value)
  : Py.result Py.value :=
  match v with
  | Py.PDict d => Py.ret (Py.get_default d k default)
  | _ => Py.raise Py.AttributeError
  end.

Definition a_acute : string := String (PyStr.chr 225) "".
Definition i_acute : string := String (PyStr.chr 237) "".
Definition LF : string := String (PyStr.chr 10) "".

Definition form_value (token : option string) : Py.value :=
  match token with
  | Some t => Py.PStr t
  | None => Py.PNone
  end.

(** [int(status.get("status", 0))] on what [flow_get_status] returned. *)
Definition status_code (status : Py.result Py.value) : Py.result Z :=
  status <- status ;;
  code <- get_method status "status" (Py.PInt 0) ;;
  Py.to_int code.

(** [existing_token or uuid.uuid4().hex]: [None] and the empty string are
    both false. *)
Definition or_mint (existing_token : option string) (random : Z) : string :=
  match existing_token with
  | Some t => if PyStr.truthy t then t else Uuid.hex (Uuid.uuid4 random)
  | None => Uuid.hex (Uuid.uuid4 random)
  end.

Definition ok_body : response :=
  JSONResponse 200 (Py.PDict [("ok", Py.PBool true)]).

Section Endpoints.

Variable cfg : Config.

(** The dict [params] of [pay_create]. *)
Definition pay_create_params (commerce_order email : string) : Py.dict :=
  [ ("commerceOrder", Py.PStr commerce_order);
    ("subject", Py.PStr "Pack IA para PYMES 2026");
    ("currency", Py.PStr "CLP");
    ("amount", Py.PInt 350);
    ("email", Py.PStr email);
    ("urlConfirmation", Py.PStr (PUBLIC_BASE_URL cfg ++ "/flow/confirmation"));
    ("urlReturn", Py.PStr (PUBLIC_BASE_URL cfg ++ "/flow/return")) ].

(** The mail that [flow_confirmation] queues. *)
Definition download_mail (email download_token : string) : email_task :=
  let link :=
    (DOWNLOAD_BASE_URL cfg ++ "/download/" ++ download_token)%string in
  {| to_email := email;
     subject := "Tu Pack IA para PYMES 2026 — Descarga";
     body := "Gracias por tu compra." ++ LF ++ LF
             ++ "Descarga aqu" ++ i_acute ++ ":" ++ LF ++ link |}.

(** [POST /pay/create]. [random1] and [random2] feed the two [uuid4()],
    [reply] answers [flow_post], [now] is the clock of the insert. *)
Definition pay_create (db : table) (payload : Py.dict) (random1 random2 : Z)
    (now : string) (reply : gateway_reply) : outcome :=
  match strip_lower (Py.or_else (Py.get_default payload "email" Py.PNone)
                                (Py.PStr "")) with
  | inl e => {| returned := inl e; orders := db; sent := []; queued := [] |}
  | inr email =>
      if negb (is_valid_email email)
      then {| returned :=
                Py.raise (Py.HTTPException 400 ("Email inv" ++ a_acute ++ "lido"));
              orders := db; sent := []; queued := [] |}
      else
        let order_id := Uuid.to_str (Uuid.uuid4 random1) in
        let commerce_order := Uuid.to_str (Uuid.uuid4 random2) in
        let params := pay_create_params commerce_order email in
        let (request, data) := flow_post cfg "/payment/create" params reply in
        let created :=
          data <- data ;;
          token <- Py.subscript data "token" ;;
          url <- Py.subscript data "url" ;;
          let checkout_url := (Py.to_str url ++ "?token=" ++ Py.to_str token)%string in
          db' <- db_create_order db order_id email commerce_order token now ;;
          Py.ret (db', checkout_url, token) in
        match created with
        | inl e =>
            {| returned := inl e; orders := db; sent := [request];
               queued := [] |}
        | inr (db', checkout_url, token) =>
            {| returned :=
                 Py.ret (JSONResponse 200
                           (Py.PDict [ ("ok", Py.PBool true);
                                       ("checkoutUrl", Py.PStr checkout_url);
                                       ("token", token) ]));
               orders := db'; sent := [request]; queued := [] |}
        end
  end.

(** [POST /flow/confirmation]. [token] is [form.get("token")], [reply]
    answers [flow_get_status], [random] feeds [uuid4()] when a token is
    minted, [now] is the clock of the update. *)
Definition flow_confirmation (db : table) (token : option string)
    (reply : gateway_reply) (random : Z) (now : string) : outcome :=
  let (request, status) := flow_get_status cfg (form_value token) reply in
  match status_code status with
  | inl e =>
      {| returned := inl e; orders := db; sent := [request]; queued := [] |}
  | inr code =>
      if code =? 2 then
        match db_get_by_flow_token db token with
        | Some (_, email, _, existing_token) =>
            let download_token := or_mint existing_token random in
            {| returned := Py.ret ok_body;
               orders := db_mark_paid db token download_token now;
               sent := [request];
               queued := [download_mail email download_token] |}
        | None =>
            {| returned := Py.ret ok_body; orders := db; sent := [request];
               queued := [] |}
        end
      else {| returned := Py.ret ok_body; orders := db; sent := [request];
              queued := [] |}
  end.

(** [GET /download/{download_token}] *)
Definition download (db : table) (download_token : string) : outcome :=
  let forbidden :=
    Py.raise (Py.HTTPException 403 ("Link inv" ++ a_acute ++ "lido")) in
  let reply (r : Py.result response) :=
    {| returned := r; orders := db; sent := []; queued := [] |} in
  match db_get_by_download_token db download_token with
  | None => reply forbidden
  | Some (_, status) =>
      if negb (status =? 2) then reply forbidden
      else if PyStr.truthy (PRODUCT_DRIVE_URL cfg)
           then reply (Py.ret (RedirectResponse (PRODUCT_DRIVE_URL cfg)))
           else reply (Py.ret (FileResponse (PRODUCT_FILE cfg) "application/zip"))
  end.

(** ** The service as a transition system *)

(** One HTTP call together with what the outside world supplies to it. *)
Inductive call : Type :=
| PayCreate (payload : Py.dict) (random1 random2 : Z) (now : string)
            (reply : gateway_reply)
| FlowConfirmation (token : option string) (reply : gateway_reply)
                   (random : Z) (now : string)
| Download (download_token : string).

Definition step (db : table) (c : call) : outcome :=
  match c with
  | PayCreate payload random1 random2 now reply =>
      pay_create db payload random1 random2 now reply
  | FlowConfirmation token reply random now =>
      flow_confirmation db token reply random now
  | Download download_token => download db download_token
  end.

(** The table after a sequence of calls. *)
Definition run (db : table) (calls : list call) : table :=
  fold_left (fun db c => orders (step db c)) calls db.

(** [db_init] creates the table empty; every later table comes from calls. *)
Inductive reachable : table -> Prop :=
| reachable_init : reachable []
| reachable_step db c : reachable db -> reachable (orders (step db c)).

End Endpoints.

(** ** Vocabulary of the properties *)

(** An address [local@domain.tld]: three non-empty runs free of [@] and of
    blanks; the domain may itself hold dots. *)
Definition email_shape (s : list ascii) : Prop :=
  exists local domain tld : list ascii,
    s = local ++ "@"%char :: domain ++ "."%char :: tld
    /\ local <> [] /\ domain <> [] /\ tld <> []
    /\ forallb email_atom local = true
    /\ forallb email_atom domain = true
    /\ forallb email_atom tld = true.

(** The address as [pay_create] uses it. *)
Definition normalize (email : string) : string :=
  PyStr.lower (PyStr.strip email).

(** The exception a failed [flow_post] of [pay_create] ends in: the one the
    exchange raised, or the one of subscripting a body that lacks [token]
    or [url]. *)
Definition gateway_failure (reply : gateway_reply) : option Py.exn :=
  match reply with
  | inl e => Some e
  | inr data =>
      match Py.subscript data "token", Py.subscript data "url" with
      | inl e, _ => Some e
      | inr _, inl e => Some e
      | inr _, inr _ => None
      end
  end.

(** The order of [sorted(params.items())]: by key. *)
Definition key_le (a b : string * Py.value) : Prop :=
  String.leb (fst a) (fst b) = true.

(** [raw] of [flow_sign], written over the sorted items. *)
Definition concat_items (items : list (string * Py.value)) : string :=
  String.concat ""
    (map (fun kv : string * Py.value => (fst kv ++ Py.to_str (snd kv))%string)
         items).

(** The rows of one gateway token, and those of them that are paid. *)
Definition with_flow_token (token : string) (db : table) : table :=
  filter (has_flow_token (Some token)) db.

Definition paid_with_flow_token (token : string) (db : table) : table :=
  filter (fun row => Row.status row =? 2) (with_flow_token token db).

(** A row as the handlers leave it: pending without a download token, or
    paid with a non-empty one. *)
Definition row_consistent (row : Row.t) : Prop :=
  (Row.status row = 1 /\ Row.download_token row = None)
  \/ (Row.status row = 2
      /\ exists t, Row.download_token row = Some t /\ t <> ""%string).

(** The paid rows of one gateway token all carry the download token of the
    oldest row of that token. *)
Definition tokens_agree (db : table) : Prop :=
  forall token first row,
    find (has_flow_token (Some token)) db = Some first ->
    In row db -> Row.flow_token row = token -> Row.status row = 2 ->
    Row.download_token row = Row.download_token first.

Definition Inv (db : table) : Prop :=
  Forall row_consistent db /\ tokens_agree db.

(** How one order may differ between an earlier and a later table: what was
    set at creation stays, paid stays paid, an assigned download token
    stays what it is, and a download token appears only on the way from
    pending to paid. *)
Definition history_ok (old new : Row.t) : Prop :=
  Row.id new = Row.id old
  /\ Row.created_at new = Row.created_at old
  /\ Row.email new = Row.email old
  /\ Row.commerce_order new = Row.commerce_order old
  /\ Row.flow_token new = Row.flow_token old
  /\ (Row.status old = 2 -> Row.status new = 2)
  /\ (forall t, Row.download_token old = Some t ->
                Row.download_token new = Some t)
  /\ (Row.download_token old = None -> Row.download_token new <> None ->
      Row.status old = 1 /\ Row.status new = 2).

(** Every order of the earlier table is still there, in its place. *)
Definition evolves (db db' : table) : Prop :=
  forall i old, nth_error db i = Some old ->
    exists new, nth_error db' i = Some new /\ history_ok old new.

(** What [download] answers when it lets the caller through. *)
Definition download_descriptor (cfg : Config) : response :=
  if PyStr.truthy (PRODUCT_DRIVE_URL cfg)
  then RedirectResponse (PRODUCT_DRIVE_URL cfg)
  else FileResponse (PRODUCT_FILE cfg) "application/zip".

Definition forbidden : response :=
  JSONResponse 403
    (Py.PDict [("detail", Py.PStr ("Link inv" ++ a_acute ++ "lido"))]).

Definition invalid_input : response :=
  JSONResponse 400
    (Py.PDict [("detail", Py.PStr ("Email inv" ++ a_acute ++ "lido"))]).

Definition server_error : response :=
  PlainTextResponse 500 "Internal Server Error".

(** A configuration and calls to run the service on. *)
Module Sample.

Definition cfg : Config :=
  {| FLOW_API_URL := "https://www.flow.cl/api";
     FLOW_API_KEY := "K";
     FLOW_SECRET_KEY := "S";
     PUBLIC_BASE_URL := "https://shop.example";
     DOWNLOAD_BASE_URL := "https://shop.example";
     PRODUCT_FILE := "products/pack_ia_pymes_2026.zip";
     PRODUCT_DRIVE_URL := "" |}.

Definition created : gateway_reply :=
  inr (Py.PDict [("token", Py.PStr "T1"); ("url", Py.PStr "https://gw/pay")]).

Definition paid : gateway_reply := inr (Py.PDict [("status", Py.PInt 2)]).

Definition rejected : gateway_reply := inr (Py.PDict [("status", Py.PInt 3)]).

Definition buy : call :=
  PayCreate [("email", Py.PStr "buyer@x.com")] 1 2 "2026-01-01T00:00:00"
            created.

Definition confirm (random : Z) : call :=
  FlowConfirmation (Some "T1") paid random "2026-01-01T00:05:00".

(** The table after one purchase was started, and its only row. *)
Definition db1 : table := orders (step cfg [] buy).

Definition order1 : Row.t :=
  {| Row.id := "00000000-0000-4000-8000-000000000001";
     Row.created_at := "2026-01-01T00:00:00";
     Row.email := "buyer@x.com";
     Row.commerce_order := "00000000-0000-4000-8000-000000000002";
     Row.flow_token := "T1";
     Row.status := 1;
     Row.download_token := None;
     Row.paid_at := None |}.

(** The table after the gateway confirmed that purchase, and the download
    token that was minted. *)
Definition db2 : table := run cfg db1 [confirm 7].

Definition D1 : string := "00000000000040008000000000000007".

End Sample.

(** ** Settings from the environment (main.py, lines 36-56) *)

Module Settings.

(** [os.environ] after [load_dotenv()]: names and their values. *)
Definition environ : Type := list (string * string).

Fixpoint lookup (env : environ) (key : string) : option string :=
  match env with
  | [] => None
  | (k, v) :: env' => if String.eqb k key then Some v else lookup env' key
  end.

(** [os.getenv(key, default)] *)
Definition getenv (env : environ) (key default : string) : string :=
  match lookup env key with
  | Some v => v
  | None => default
  end.

Fixpoint drop_leading (c : ascii) (l : list ascii) : list ascii :=
  match l with
  | x :: l' => if Ascii.eqb x c then drop_leading c l' else l
  | [] => []
  end.

(** [s.rstrip("/")]: every trailing slash goes. *)
Definition rstrip_slash (s : string) : string :=
  PyStr.str (rev (drop_leading "/" (rev (PyStr.chars s)))).

(** The settings that only the mail and [health] read. *)
Record Mail : Type := {
  EMAIL_PROVIDER : string;
  RESEND_API_KEY : string;
  FROM_EMAIL : string;
  SMTP_HOST : string;
  SMTP_PORT : Z;
  SMTP_USER : string;
  SMTP_PASS : string
}.

(** [x or "smtp"] on a str. *)
Definition or_smtp (x : string) : string :=
  if PyStr.truthy x then x else "smtp".

(** The module-level assignments, in their order; [int] of [SMTP_PORT] is
    the one that can raise, and then the module does not load. *)
Definition load (env : environ) : Py.result (Config * Mail) :=
  let flow_api_url := rstrip_slash (getenv env "FLOW_API_URL"
                                      "https://www.flow.cl/api") in
  let flow_api_key := getenv env "FLOW_API_KEY" "" in
  let flow_secret_key := getenv env "FLOW_SECRET_KEY" "" in
  let public_base_url := rstrip_slash (getenv env "PUBLIC_BASE_URL" "") in
  let download_base_url :=
    rstrip_slash (getenv env "DOWNLOAD_BASE_URL" public_base_url) in
  let product_file :=
    getenv env "PRODUCT_FILE" "products/pack_ia_pymes_2026.zip" in
  let product_drive_url := PyStr.strip (getenv env "PRODUCT_DRIVE_URL" "") in
  let email_provider :=
    PyStr.lower (PyStr.strip (or_smtp (getenv env "EMAIL_PROVIDER" "smtp"))) in
  let resend_api_key := PyStr.strip (getenv env "RESEND_API_KEY" "") in
  let from_email := PyStr.strip (getenv env "FROM_EMAIL" "") in
  let smtp_host := PyStr.strip (getenv env "SMTP_HOST" "") in
  smtp_port <- Py.int_of_str (getenv env "SMTP_PORT" "587") ;;
  let smtp_user := PyStr.strip (getenv env "SMTP_USER" "") in
  let smtp_pass := PyStr.strip (getenv env "SMTP_PASS" "") in
  Py.ret ({| FLOW_API_URL := flow_api_url;
             FLOW_API_KEY := flow_api_key;
             FLOW_SECRET_KEY := flow_secret_key;
             PUBLIC_BASE_URL := public_base_url;
             DOWNLOAD_BASE_URL := download_base_url;
             PRODUCT_FILE := product_file;
             PRODUCT_DRIVE_URL := product_drive_url |},
          {| EMAIL_PROVIDER := email_provider;
             RESEND_API_KEY := resend_api_key;
             FROM_EMAIL := from_email;
             SMTP_HOST := smtp_host;
             SMTP_PORT := smtp_port;
             SMTP_USER := smtp_user;
             SMTP_PASS := smtp_pass |}).

(** Does the string end with this character? *)
Definition ends_with (c : ascii) (s : string) : Prop :=
  exists l, PyStr.chars s = l ++ [c].

End Settings.

(** ** Email (main.py, lines 149-173) *)

Module Email.

(** The POST that [send_email_via_resend] hands to [requests]. *)
Record request : Type := {
  url : string;
  headers : list (string * string);
  json : Py.value
}.

(** What comes back from that POST: the text of the exception [requests]
    raised, or the status code and the text of the response. *)
Definition reply : Type := (string + Z * string)%type.

(** What one run of [send_email] did: the POSTs it attempted and the lines
    it printed. *)
Record effects : Type := {
  attempted : list request;
  printed : list string
}.

Section Sender.

Variable mail : Settings.Mail.

Definition resend_request (to_email subject body : string) : request :=
  {| url := "https://api.resend.com/emails";
     headers :=
       [ ("Authorization",
          ("Bearer " ++ Settings.RESEND_API_KEY mail)%string);
         ("Content-Type", "application/json") ];
     json :=
       Py.PDict [ ("from", Py.PStr (Settings.FROM_EMAIL mail));
                  ("to", Py.PList [Py.PStr to_email]);
                  ("subject", Py.PStr subject);
                  ("text", Py.PStr body) ] |}.

(** [send_email_via_resend]: the request, and the text of what it raises
    (the exception of [requests], or [RuntimeError(r.text)] from a status
    of 300 or more), if it raises. *)
Definition send_email_via_resend (to_email subject body : string) (r : reply)
  : request * option string :=
  (resend_request to_email subject body,
   match r with
   | inl message => Some message
   | inr (status_code, text) =>
       if 300 <=? status_code then Some text else None
   end).

(** [send_email]: only the provider [resend] sends; [except Exception]
    catches whatever was raised and prints it, so the function always
    returns. *)
Definition send_email (to_email subject body : string) (r : reply) : effects :=
  if String.eqb (Settings.EMAIL_PROVIDER mail) "resend" then
    let (request, raised) := send_email_via_resend to_email subject body r in
    match raised with
    | None =>
        {| attempted := [request];
           printed := [("[EMAIL] Enviado a " ++ to_email)%string] |}
    | Some message =>
        {| attempted := [request];
           printed := [("[EMAIL ERROR] " ++ message)%string] |}
    end
  else {| attempted := []; printed := [] |}.

(** A queued task, run after the response went out. *)
Definition run_task (task : email_task) (r : reply) : effects :=
  send_email (to_email task) (subject task) (body task) r.

End Sender.

End Email.

(** ** The endpoints that read no table (main.py, lines 178-185, 235-237) *)

(** [GET /health] *)
Definition health (cfg : Config) (mail : Settings.Mail) : Py.value :=
  Py.PDict
    [ ("ok", Py.PBool true);
      ("email_provider", Py.PStr (Settings.EMAIL_PROVIDER mail));
      ("resend_configured",
       Py.PBool (PyStr.truthy (Settings.RESEND_API_KEY mail)
                 && PyStr.truthy (Settings.FROM_EMAIL mail)));
      ("has_product_drive_url",
       Py.PBool (PyStr.truthy (PRODUCT_DRIVE_URL cfg))) ].

(** [POST /flow/return] *)
Definition flow_return : Py.value :=
  Py.PDict [ ("ok", Py.PBool true);
             ("message", Py.PStr "Pago confirmado. Revisa tu correo.") ].

(** ** More vocabulary *)

Definition is_hex_digit (c : ascii) : bool :=
  let n := PyStr.code c in
  ((48 <=? n) && (n <=? 57)) || ((97 <=? n) && (n <=? 102)).

(** The characters a form body is made of: the unreserved ones, [+], [%],
    and the two separators. *)
Definition is_form_char (c : ascii) : bool :=
  Url.always_safe c || Ascii.eqb c "+" || Ascii.eqb c "%"
  || Ascii.eqb c "&" || Ascii.eqb c "=".

(** What a minted download token looks like: 32 lowercase hex digits. *)
Definition is_token (d : string) : Prop :=
  String.length d = 32%nat
  /\ forallb is_hex_digit (PyStr.chars d) = true.

(** A row as the handlers leave it, its timestamp included. *)
Definition row_wellformed (row : Row.t) : Prop :=
  row_consistent row
  /\ (Row.paid_at row = None <-> Row.status row = 1)
  /\ is_valid_email (Row.email row) = true
  /\ normalize (Row.email row) = Row.email row.

(** * Properties *)

(** ** Strings *)

Module PyStrFacts.
Import PyStr.

Lemma chars_str l : chars (str l) = l.
Proof. apply list_ascii_of_string_of_list_ascii. Qed.

Lemma str_chars s : str (chars s) = s.
Proof. apply string_of_list_ascii_of_string. Qed.

Lemma chars_app s1 s2 : chars (s1 ++ s2)%string = chars s1 ++ chars s2.
Proof.
  induction s1 as [|c s1 IH]; simpl; [reflexivity|].
  unfold chars in *; simpl; now rewrite IH.
Qed.

Lemma chars_nil s : chars s = [] <-> s = ""%string.
Proof.
  split; intros H.
  - destruct s; [reflexivity | discriminate].
  - now subst.
Qed.

Lemma truthy_chars s : truthy s = true <-> chars s <> [].
Proof.
  destruct s; simpl; split; intros H; try congruence; try discriminate.
Qed.

(** Lowering never makes or unmakes a blank, an [@] or a dot. *)
Lemma is_space_lower_char c : is_space (lower_char c) = is_space c.
Proof. destruct c as [[] [] [] [] [] [] [] []]; reflexivity. Qed.

Lemma lower_char_eqb_at c :
  Ascii.eqb (lower_char c) "@" = Ascii.eqb c "@".
Proof. destruct c as [[] [] [] [] [] [] [] []]; reflexivity. Qed.

Lemma lower_char_eqb_dot c :
  Ascii.eqb (lower_char c) "." = Ascii.eqb c ".".
Proof. destruct c as [[] [] [] [] [] [] [] []]; reflexivity. Qed.

Lemma lower_char_idem c : lower_char (lower_char c) = lower_char c.
Proof. destruct c as [[] [] [] [] [] [] [] []]; reflexivity. Qed.

Lemma last_case {A} (l : list A) : l = [] \/ exists l' a, l = l' ++ [a].
Proof.
  induction l as [|x l _] using rev_ind; [now left | right; eauto].
Qed.

(** [lstrip] drops a run of blanks and stops at the first other character. *)
Lemma lstrip_chars_split l :
  exists pre, l = pre ++ lstrip_chars l /\ forallb is_space pre = true.
Proof.
  induction l as [|c l [pre [E F]]]; simpl.
  - now exists [].
  - destruct (is_space c) eqn:S.
    + exists (c :: pre); simpl; rewrite S, F; split; [now f_equal | reflexivity].
    + now exists [].
Qed.

Lemma lstrip_chars_head l c l' :
  lstrip_chars l = c :: l' -> is_space c = false.
Proof.
  induction l as [|x l IH]; simpl; [discriminate|].
  destruct (is_space x) eqn:S; [exact IH|].
  intros E; injection E as -> _; exact S.
Qed.

Lemma rstrip_chars_split l :
  exists post, l = rstrip_chars l ++ post /\ forallb is_space post = true.
Proof.
  unfold rstrip_chars.
  destruct (lstrip_chars_split (rev l)) as [pre [E F]].
  exists (rev pre); split.
  - rewrite <- rev_app_distr, <- E; now rewrite rev_involutive.
  - rewrite forallb_forall in *; intros x Hx; apply F; now apply in_rev.
Qed.

Lemma rstrip_chars_last l l' c :
  rstrip_chars l = l' ++ [c] -> is_space c = false.
Proof.
  unfold rstrip_chars; intros E.
  apply (f_equal (@rev ascii)) in E.
  rewrite rev_involutive, rev_app_distr in E; simpl in E.
  eapply lstrip_chars_head; eassumption.
Qed.

(** [strip] cuts a run of blanks off each end. *)
Lemma strip_split s :
  exists pre post,
    chars s = pre ++ chars (strip s) ++ post
    /\ forallb is_space pre = true /\ forallb is_space post = true.
Proof.
  unfold strip; rewrite chars_str.
  destruct (lstrip_chars_split (chars s)) as [pre [E1 F1]].
  destruct (rstrip_chars_split (lstrip_chars (chars s))) as [post [E2 F2]].
  exists pre, post; split; [|split]; try assumption.
  now rewrite <- E2.
Qed.

Lemma strip_last s l c : chars (strip s) = l ++ [c] -> is_space c = false.
Proof.
  unfold strip; rewrite chars_str; apply rstrip_chars_last.
Qed.

Lemma chars_lower s : chars (lower s) = map lower_char (chars s).
Proof. unfold lower; apply chars_str. Qed.

End PyStrFacts.

(** ** Regular expressions: the matcher decides the language *)

Module ReFacts.
Import Re.

Lemma lang_nil_nullable r s : lang r s -> s = [] -> nullable r = true.
Proof.
  induction 1; intros E; simpl; try reflexivity; try discriminate.
  - apply app_eq_nil in E as [-> ->]; now rewrite IHlang1, IHlang2.
  - now rewrite IHlang, ?orb_true_l.
  - rewrite IHlang by assumption; apply orb_true_r.
Qed.

Lemma nullable_lang r : nullable r = true <-> lang r [].
Proof.
  split; [| intros H; now apply (lang_nil_nullable H)].
  induction r; simpl; intros H; try discriminate.
  - constructor.
  - apply andb_true_iff in H as [H1 H2].
    change (@nil ascii) with (@nil ascii ++ []); constructor; auto.
  - apply orb_true_iff in H as [H|H]; [apply lang_alt_l | apply lang_alt_r]; auto.
  - constructor.
Qed.

Lemma lang_deriv c r s : lang (deriv c r) s -> lang r (c :: s).
Proof.
  revert s; induction r; simpl; intros s H.
  - inversion H.
  - inversion H.
  - destruct (b c) eqn:B; inversion H; subst. now constructor.
  - destruct (nullable r1) eqn:N.
    + inversion H; subst.
      * match goal with X : lang (Cat _ _) _ |- _ => inversion X; subst end.
        change (c :: s1 ++ s2) with ((c :: s1) ++ s2); constructor; auto.
      * change (c :: s) with ([] ++ c :: s); constructor; auto.
        now apply nullable_lang.
    + inversion H; subst.
      change (c :: s1 ++ s2) with ((c :: s1) ++ s2); constructor; auto.
  - inversion H; subst; [apply lang_alt_l | apply lang_alt_r]; auto.
  - inversion H; subst.
    change (c :: s1 ++ s2) with ((c :: s1) ++ s2); constructor; auto.
Qed.

Lemma deriv_lang c r s' :
  lang r s' -> forall rest, s' = c :: rest -> lang (deriv c r) rest.
Proof.
  induction 1; intros rest E; simpl.
  - discriminate.
  - injection E as -> <-. rewrite H; constructor.
  - destruct s1 as [|x s1]; simpl in E.
    + assert (N : nullable r1 = true) by now apply nullable_lang.
      rewrite N; apply lang_alt_r; auto.
    + injection E as -> <-.
      destruct (nullable r1); [apply lang_alt_l|]; constructor; auto.
  - apply lang_alt_l; auto.
  - apply lang_alt_r; auto.
  - discriminate.
  - destruct s1 as [|x s1]; simpl in E.
    + now apply IHlang2.
    + injection E as -> <-. constructor; auto.
Qed.

(** The derivative matcher accepts exactly the language of the regex. *)
Lemma fullmatch_lang r s : fullmatch r s = true <-> lang r s.
Proof.
  revert r; induction s as [|c s IH]; intros r; simpl.
  - apply nullable_lang.
  - rewrite IH; split; [apply lang_deriv | intros H; now apply (deriv_lang H)].
Qed.

Lemma lang_star_class p s :
  lang (Star (Class p)) s <-> forallb p s = true.
Proof.
  split.
  - intros H; remember (Star (Class p)) as r eqn:R.
    induction H; try discriminate; [reflexivity|].
    injection R as ->. inversion H; subst; simpl.
    rewrite IHlang2 by reflexivity.
    match goal with X : p _ = true |- _ => now rewrite X end.
  - induction s as [|c s IH]; simpl; intros H; [constructor|].
    apply andb_true_iff in H as [H1 H2].
    change (c :: s) with ([c] ++ s); constructor; [now constructor | auto].
Qed.

Lemma lang_plus_class p s :
  lang (Plus (Class p)) s <-> s <> [] /\ forallb p s = true.
Proof.
  unfold Plus; split.
  - intros H; inversion H; subst.
    match goal with X : lang (Class _) _ |- _ => inversion X; subst end.
    match goal with X : lang (Star _) _ |- _ => apply lang_star_class in X end.
    simpl; split; [discriminate|].
    apply andb_true_iff; auto.
  - intros [N F]; destruct s as [|c s]; [congruence|].
    simpl in F; apply andb_true_iff in F as [F1 F2].
    change (c :: s) with ([c] ++ s); constructor;
      [now constructor | now apply lang_star_class].
Qed.

Lemma lang_lit c s : lang (Lit c) s <-> s = [c].
Proof.
  unfold Lit; split.
  - intros H; inversion H; subst.
    match goal with X : Ascii.eqb _ _ = true |- _ =>
      apply Ascii.eqb_eq in X; now subst end.
  - intros ->; constructor; apply Ascii.eqb_refl.
Qed.

End ReFacts.

(** ** [is_valid_email] accepts exactly the addresses of the right shape *)

Module EmailFacts.
Import Re ReFacts PyStr PyStrFacts.

Lemma lang_cat_inv r1 r2 s :
  lang (Cat r1 r2) s <->
  exists s1 s2, s = s1 ++ s2 /\ lang r1 s1 /\ lang r2 s2.
Proof.
  split.
  - intros H; inversion H; subst; eauto.
  - intros (s1 & s2 & -> & H1 & H2); now constructor.
Qed.

Lemma lang_optional r s : lang (Alt Eps r) s <-> s = [] \/ lang r s.
Proof.
  split.
  - intros H; inversion H; subst; [left | now right].
    match goal with X : lang Eps _ |- _ => now inversion X end.
  - intros [-> | H]; [apply lang_alt_l; constructor | now apply lang_alt_r].
Qed.

Lemma lang_plus_cat p r s :
  lang (Cat (Plus (Class p)) r) s <->
  exists s1 s2, s = s1 ++ s2 /\ s1 <> [] /\ forallb p s1 = true /\ lang r s2.
Proof.
  rewrite lang_cat_inv; split.
  - intros (s1 & s2 & -> & H1 & H2); apply lang_plus_class in H1 as [N F].
    now exists s1, s2.
  - intros (s1 & s2 & -> & N & F & H2); exists s1, s2.
    repeat split; auto; now apply lang_plus_class.
Qed.

Lemma lang_lit_cat c r s :
  lang (Cat (Lit c) r) s <-> exists s2, s = c :: s2 /\ lang r s2.
Proof.
  rewrite lang_cat_inv; split.
  - intros (s1 & s2 & -> & H1 & H2); apply lang_lit in H1 as ->.
    now exists s2.
  - intros (s2 & -> & H2); exists [c], s2.
    repeat split; auto; now apply lang_lit.
Qed.

(** The language of [EMAIL_REGEX]: an address, or an address and one final
    newline. *)
Lemma email_regex_lang s :
  lang EMAIL_REGEX s <->
  email_shape s \/ exists s', s = s' ++ [newline] /\ email_shape s'.
Proof.
  unfold EMAIL_REGEX, email_shape.
  rewrite lang_plus_cat.
  setoid_rewrite lang_lit_cat.
  setoid_rewrite lang_plus_cat.
  setoid_rewrite lang_lit_cat.
  setoid_rewrite lang_plus_cat.
  setoid_rewrite lang_optional.
  setoid_rewrite lang_lit.
  split.
  - intros (l & r1 & -> & Nl & Fl & r2 & -> & d & r3 & -> & Nd & Fd
            & r4 & -> & t & nl & -> & Nt & Ft & [-> | ->]).
    + left; exists l, d, t; rewrite app_nil_r; auto 10.
    + right; exists (l ++ "@"%char :: d ++ "."%char :: t); split.
      * rewrite <- !app_assoc; simpl; rewrite <- !app_assoc; reflexivity.
      * exists l, d, t; auto 10.
  - intros [(l & d & t & -> & Nl & Nd & Nt & Fl & Fd & Ft)
           | (s' & -> & l & d & t & -> & Nl & Nd & Nt & Fl & Fd & Ft)].
    + exists l, ("@"%char :: d ++ "."%char :: t); repeat split; auto.
      exists (d ++ "."%char :: t); split; auto.
      exists d, ("."%char :: t); repeat split; auto.
      exists t; split; auto.
      exists t, []; rewrite app_nil_r; repeat split; auto.
    + exists l, ("@"%char :: d ++ "."%char :: t ++ [newline]); split.
      { rewrite <- !app_assoc; simpl; rewrite <- !app_assoc; reflexivity. }
      repeat split; auto.
      exists (d ++ "."%char :: t ++ [newline]); split; auto.
      exists d, ("."%char :: t ++ [newline]); repeat split; auto.
      exists (t ++ [newline]); split; auto.
      exists t, [newline]; repeat split; auto.
Qed.

Lemma email_shape_nonempty s : email_shape s -> s <> [].
Proof.
  intros (l & d & t & -> & Nl & _) E.
  apply app_eq_nil in E as [E _]; contradiction.
Qed.

(** What [is_valid_email] decides. *)
Lemma is_valid_email_spec email :
  is_valid_email email = true <->
  email_shape (chars email)
  \/ exists s', chars email = s' ++ [newline] /\ email_shape s'.
Proof.
  unfold is_valid_email.
  rewrite andb_true_iff, fullmatch_lang, email_regex_lang, truthy_chars.
  split; [tauto|].
  intros H; split; [|exact H].
  destruct H as [H | (s' & E & H)].
  - now apply email_shape_nonempty.
  - rewrite E; intros N; apply app_eq_nil in N as [_ N]; discriminate.
Qed.

Lemma chars_normalize email :
  chars (normalize email) = map lower_char (chars (strip email)).
Proof. unfold normalize; apply chars_lower. Qed.

(** A stripped, lowered string never ends in a newline. *)
Lemma normalize_no_final_newline email s' :
  chars (normalize email) <> s' ++ [newline].
Proof.
  rewrite chars_normalize; intros E.
  destruct (last_case (chars (strip email))) as [S | (l0 & c0 & S)];
    rewrite S in E.
  - destruct s'; discriminate.
  - rewrite map_app in E; simpl in E.
    apply app_inj_tail in E as [_ E].
    apply strip_last in S.
    rewrite <- is_space_lower_char, E in S; discriminate.
Qed.

(** On the address as [pay_create] validates it, the check is the shape. *)
Lemma is_valid_email_normalize email :
  is_valid_email (normalize email) = true <->
  email_shape (chars (normalize email)).
Proof.
  rewrite is_valid_email_spec; split; [|tauto].
  intros [H | (s' & E & _)]; [exact H|].
  now apply normalize_no_final_newline in E.
Qed.

Lemma email_atom_lower_char c : email_atom (lower_char c) = email_atom c.
Proof.
  unfold email_atom; now rewrite lower_char_eqb_at, is_space_lower_char.
Qed.

Lemma forallb_atom_lower l :
  forallb email_atom (map lower_char l) = forallb email_atom l.
Proof.
  induction l as [|c l IH]; simpl; [reflexivity|].
  now rewrite email_atom_lower_char, IH.
Qed.

(** Lowering keeps the shape, both ways. *)
Lemma email_shape_lower s : email_shape (map lower_char s) <-> email_shape s.
Proof.
  split.
  - intros (l & d & t & E & Nl & Nd & Nt & Fl & Fd & Ft).
    apply map_eq_app in E as (l0 & r1 & -> & <- & E).
    apply map_eq_cons in E as (a & r2 & -> & Ea & E).
    apply map_eq_app in E as (d0 & r3 & -> & <- & E).
    apply map_eq_cons in E as (b & t0 & -> & Eb & <-).
    rewrite forallb_atom_lower in Fl, Fd, Ft.
    assert (a = "@"%char) as ->.
    { apply Ascii.eqb_eq; rewrite <- lower_char_eqb_at; now apply Ascii.eqb_eq. }
    assert (b = "."%char) as ->.
    { apply Ascii.eqb_eq; rewrite <- lower_char_eqb_dot; now apply Ascii.eqb_eq. }
    exists l0, d0, t0; repeat split; auto; intros ->; auto.
  - intros (l & d & t & -> & Nl & Nd & Nt & Fl & Fd & Ft).
    exists (map lower_char l), (map lower_char d), (map lower_char t).
    rewrite !forallb_atom_lower; repeat split; auto.
    + now rewrite map_app; simpl; rewrite map_app.
    + intros E; apply map_eq_nil in E; auto.
    + intros E; apply map_eq_nil in E; auto.
    + intros E; apply map_eq_nil in E; auto.
Qed.

Lemma atom_not_space c : email_atom c = true -> is_space c = false.
Proof.
  unfold email_atom; rewrite negb_true_iff, orb_false_iff; tauto.
Qed.

Lemma atoms_no_at l : forallb email_atom l = true -> ~ In "@"%char l.
Proof.
  rewrite forallb_forall; intros F H; apply F in H; discriminate.
Qed.

Lemma spaces_no_at l : forallb is_space l = true -> ~ In "@"%char l.
Proof.
  rewrite forallb_forall; intros F H; apply F in H; discriminate.
Qed.

(** A list with a single [c] splits at [c] in one way only. *)
Lemma split_at_unique {A} (c : A) l1 r1 l2 r2 :
  l1 ++ c :: r1 = l2 ++ c :: r2 ->
  ~ In c l1 -> ~ In c r1 -> l2 = l1 /\ r2 = r1.
Proof.
  revert l2; induction l1 as [|x l1 IH]; intros [|y l2] E N1 N2; simpl in *.
  - injection E as ->; auto.
  - injection E as <- ->; exfalso; apply N2, in_or_app; right; now left.
  - injection E as -> _; exfalso; apply N1; now left.
  - injection E as -> E; apply IH in E as [-> ->]; auto.
Qed.

(** The validated address has the shape exactly when the stripped input
    has it. *)
Lemma is_valid_email_strip email :
  is_valid_email (normalize email) = true <->
  email_shape (chars (strip email)).
Proof.
  now rewrite is_valid_email_normalize, chars_normalize, email_shape_lower.
Qed.

(** An input without [@] is refused. *)
Lemma no_at_invalid email :
  ~ In "@"%char (chars email) -> is_valid_email (normalize email) = false.
Proof.
  intros N; apply not_true_is_false; rewrite is_valid_email_strip.
  intros (l & d & t & E & _); apply N.
  destruct (strip_split email) as (pre & post & -> & _); rewrite E.
  apply in_or_app; right; apply in_or_app; left.
  apply in_or_app; right; now left.
Qed.

(** An input whose part after the [@] holds no dot is refused. *)
Lemma no_dot_invalid email local domain :
  chars email = local ++ "@"%char :: domain ->
  ~ In "."%char domain -> is_valid_email (normalize email) = false.
Proof.
  intros E N; apply not_true_is_false; rewrite is_valid_email_strip.
  intros (l & d & t & S & _ & _ & _ & Fl & Fd & Ft); apply N.
  destruct (strip_split email) as (pre & post & E' & Fpre & Fpost).
  rewrite S, E in E'.
  replace (pre ++ (l ++ "@"%char :: d ++ "."%char :: t) ++ post)
    with ((pre ++ l) ++ "@"%char :: (d ++ "."%char :: t ++ post)) in E'
    by (rewrite <- !app_assoc; simpl; rewrite <- !app_assoc; reflexivity).
  symmetry in E'; apply split_at_unique in E' as [_ ->].
  - apply in_or_app; right; now left.
  - intros H; apply in_app_or in H as [H | H];
      [now apply spaces_no_at in H | now apply atoms_no_at in H].
  - intros H; apply in_app_or in H as [H | [H | H]];
      [now apply atoms_no_at in H | discriminate |].
    apply in_app_or in H as [H | H];
      [now apply atoms_no_at in H | now apply spaces_no_at in H].
Qed.

Lemma lstrip_chars_id c l :
  is_space c = false -> lstrip_chars (c :: l) = c :: l.
Proof. intros H; simpl; now rewrite H. Qed.

Lemma rstrip_chars_id l c :
  is_space c = false -> rstrip_chars (l ++ [c]) = l ++ [c].
Proof.
  intros H; unfold rstrip_chars; rewrite rev_app_distr; simpl.
  rewrite H; simpl; now rewrite rev_involutive.
Qed.

(** An input that already has the shape is accepted. *)
Lemma shape_valid email :
  email_shape (chars email) -> is_valid_email (normalize email) = true.
Proof.
  intros S; apply is_valid_email_strip.
  assert (E : chars (strip email) = chars email); [|now rewrite E].
  unfold strip; rewrite chars_str.
  destruct S as (l & d & t & -> & Nl & _ & Nt & Fl & _ & Ft).
  destruct l as [|c l]; [contradiction|].
  simpl in Fl; apply andb_true_iff in Fl as [Fc _].
  simpl; rewrite (atom_not_space _ Fc).
  destruct (last_case t) as [-> | (t' & z & ->)]; [contradiction|].
  rewrite forallb_app in Ft; apply andb_true_iff in Ft as [_ Fz].
  simpl in Fz; rewrite andb_true_r in Fz.
  replace (c :: l ++ "@"%char :: d ++ "."%char :: t' ++ [z])
    with ((c :: l ++ "@"%char :: d ++ "."%char :: t') ++ [z]).
  - apply rstrip_chars_id; now apply atom_not_space.
  - simpl; rewrite <- !app_assoc; simpl; rewrite <- !app_assoc; reflexivity.
Qed.

End EmailFacts.

(** ** The table *)

Module DbFacts.

Lemma has_flow_token_true token row :
  has_flow_token token row = true <-> token = Some (Row.flow_token row).
Proof.
  destruct token as [t|]; simpl.
  - rewrite String.eqb_eq; split; [now intros -> | now intros [= ->]].
  - split; discriminate.
Qed.

Lemma has_download_token_true t row :
  has_download_token t row = true <-> Row.download_token row = Some t.
Proof.
  unfold has_download_token; destruct (Row.download_token row) as [d|].
  - rewrite String.eqb_eq; split; [now intros -> | now intros [= ->]].
  - split; discriminate.
Qed.

Lemma find_none_all {A} (f : A -> bool) l :
  find f l = None <-> forall x, In x l -> f x = false.
Proof.
  split; [apply find_none|].
  induction l as [|x l IH]; simpl; intros H; [reflexivity|].
  rewrite (H x) by now left. apply IH; intros y Hy; apply H; now right.
Qed.

Lemma find_app {A} (f : A -> bool) l1 l2 :
  find f (l1 ++ l2) =
  match find f l1 with Some x => Some x | None => find f l2 end.
Proof.
  induction l1 as [|x l1 IH]; simpl; [reflexivity|].
  now destruct (f x).
Qed.

Lemma find_map_stable {A} (f : A -> bool) (g : A -> A) l :
  (forall x, f (g x) = f x) ->
  find f (map g l) = option_map g (find f l).
Proof.
  intros H; induction l as [|x l IH]; simpl; [reflexivity|].
  rewrite H; now destruct (f x).
Qed.

(** No row of that gateway token: the lookup finds nothing. *)
Lemma db_get_by_flow_token_none db token :
  db_get_by_flow_token db token = None <->
  forall row, In row db -> Some (Row.flow_token row) <> token.
Proof.
  unfold db_get_by_flow_token.
  destruct (find (has_flow_token token) db) as [row|] eqn:F.
  - split; [discriminate|]; intros H.
    apply find_some in F as [I T]; apply has_flow_token_true in T.
    exfalso; apply (H row I); now symmetry.
  - split; [|reflexivity]; intros _ row I E.
    rewrite find_none_all in F; specialize (F row I).
    symmetry in E; apply has_flow_token_true in E; congruence.
Qed.

Lemma db_get_by_download_token_none db t :
  db_get_by_download_token db t = None <->
  forall row, In row db -> Row.download_token row <> Some t.
Proof.
  unfold db_get_by_download_token.
  destruct (find (has_download_token t) db) as [row|] eqn:F.
  - split; [discriminate|]; intros H.
    apply find_some in F as [I T]; apply has_download_token_true in T.
    now apply H in I.
  - split; [|reflexivity]; intros _ row I E.
    rewrite find_none_all in F; specialize (F row I).
    apply has_download_token_true in E; congruence.
Qed.

(** [db_mark_paid] leaves the gateway tokens as they are. *)
Lemma has_flow_token_mark_paid token t d now row :
  has_flow_token token (mark_paid_row t d now row) = has_flow_token token row.
Proof. unfold mark_paid_row; now destruct (has_flow_token t row), token. Qed.

Lemma db_mark_paid_length db token d now :
  List.length (db_mark_paid db token d now) = List.length db.
Proof. apply length_map. Qed.

(** A minted token is never empty. *)
Lemma hex_nonempty n z : Py.hex (S n) z <> [].
Proof.
  cbn [Py.hex]; intros E; apply app_eq_nil in E as [_ E]; discriminate.
Qed.

Lemma uuid_hex_truthy u : PyStr.truthy (Uuid.hex u) = true.
Proof.
  unfold Uuid.hex; pose proof (hex_nonempty 31 u) as N.
  destruct (Py.hex 32 u) as [|c l]; [contradiction | reflexivity].
Qed.

Lemma or_mint_truthy existing random :
  PyStr.truthy (or_mint existing random) = true.
Proof.
  unfold or_mint; destruct existing as [t|]; [|apply uuid_hex_truthy].
  destruct (PyStr.truthy t) eqn:T; [exact T | apply uuid_hex_truthy].
Qed.

Lemma truthy_nonempty s : PyStr.truthy s = true <-> s <> ""%string.
Proof. destruct s; simpl; split; congruence. Qed.

(** A token that was chosen once is chosen again. *)
Lemma or_mint_reuse existing random random' :
  or_mint (Some (or_mint existing random)) random' = or_mint existing random.
Proof.
  unfold or_mint at 1; now rewrite or_mint_truthy.
Qed.

End DbFacts.

(** ** The confirmation webhook *)

Module ConfirmationFacts.
Import DbFacts.

(** The handler, by the three ways the status query can end. *)
Lemma flow_confirmation_cases cfg db token reply random now :
  let out := flow_confirmation cfg db token reply random now in
  match status_code reply with
  | inl e => returned out = inl e /\ orders out = db /\ queued out = []
  | inr code =>
      returned out = inr ok_body
      /\ (if code =? 2
          then match find (has_flow_token token) db with
               | Some first =>
                   let d := or_mint (Row.download_token first) random in
                   orders out = db_mark_paid db token d now
                   /\ queued out = [download_mail cfg (Row.email first) d]
               | None => orders out = db /\ queued out = []
               end
          else orders out = db /\ queued out = [])
  end.
Proof.
  unfold flow_confirmation, flow_get_status, db_get_by_flow_token; simpl.
  destruct (status_code reply) as [e | code]; simpl; [auto|].
  destruct (code =? 2); simpl; [|auto].
  destruct (find (has_flow_token token) db) as [first|]; simpl; auto.
Qed.

End ConfirmationFacts.

(** C9, as the code has it.  When the gateway does not report status 2
    (it reports another status, or the status query fails), or the store
    holds no order of the gateway token, [flow_confirmation] leaves the
    table as it was and queues no mail.  It answers [{ok: true}] when the
    status query reported a status.  When the query failed, its exception
    leaves the handler, also for a token that no order has, because the
    status is asked for before the order is looked up: the caller gets
    the error response, a 500 for whatever [requests], [resp.json()],
    [status.get] or [int] raise. *)
Theorem flow_confirmation_noop cfg db token reply random now :
  status_code reply <> inr 2
  \/ (forall row, In row db -> Some (Row.flow_token row) <> token) ->
  let out := flow_confirmation cfg db token reply random now in
  orders out = db /\ queued out = []
  /\ match status_code reply with
     | inr _ => respond (returned out) = ok_body
     | inl e =>
         returned out = inl e
         /\ ((forall status detail, e <> Py.HTTPException status detail) ->
             respond (returned out) = server_error)
     end.
Proof.
  intros H out.
  pose proof (ConfirmationFacts.flow_confirmation_cases
                cfg db token reply random now) as C.
  fold out in C; destruct (status_code reply) as [e | code] eqn:S.
  - destruct C as (R & O & Q); rewrite R; repeat split; auto.
    intros N; destruct e; try reflexivity.
    now exfalso; eapply N.
  - destruct C as [R C]; rewrite R.
    assert (X : orders out = db /\ queued out = []).
    { destruct (code =? 2) eqn:E; [|exact C].
      destruct H as [H | H];
        [apply Z.eqb_eq in E; subst code; now destruct H|].
      apply DbFacts.db_get_by_flow_token_none in H.
      unfold db_get_by_flow_token in H.
      destruct (find (has_flow_token token) db); [discriminate | exact C]. }
    destruct X as [O Q]; repeat split; auto.
Qed.

(** The sample purchase, and a gateway that reports status 3. *)
Lemma flow_confirmation_noop_witness :
  status_code Sample.rejected <> inr 2
  /\ (let out := flow_confirmation Sample.cfg Sample.db1 (Some "T1"%string)
                   Sample.rejected 7 "2026-01-01T00:05:00" in
      orders out = Sample.db1 /\ queued out = []
      /\ respond (returned out) = ok_body).
Proof.
  assert (N : status_code Sample.rejected <> inr 2)
    by (intros E; vm_compute in E; discriminate).
  split; [exact N|].
  destruct (@flow_confirmation_noop Sample.cfg Sample.db1 (Some "T1"%string)
              Sample.rejected 7 "2026-01-01T00:05:00"%string (or_introl N))
    as (O & Q & R).
  split; [exact O|]; split; [exact Q | exact R].
Defined.

(** C9 does not hold as stated: for a gateway token that no order has, a
    status query that raises reaches the webhook caller as a 500, not as
    success; the table is left as it was and no mail is queued. *)
Lemma flow_confirmation_unknown_token_gateway_error :
  let out := flow_confirmation Sample.cfg Sample.db1 (Some "T9"%string)
               (inl Py.RequestError) 7 "2026-01-01T00:05:00" in
  (forall row, In row Sample.db1 ->
               Some (Row.flow_token row) <> Some "T9"%string)
  /\ respond (returned out) = server_error
  /\ respond (returned out) <> ok_body
  /\ orders out = Sample.db1 /\ queued out = [].
Proof.
  intros out; split.
  - intros row [<- | []]; vm_compute; discriminate.
  - repeat split; discriminate.
Qed.

(** C3, as the code has it. [flow_confirmation] answers [{ok: true}]
    whenever the status query yields a JSON object whose [status] (0 when
    absent) converts to an int.  When the query raises, or the body is not
    an object, or the status does not convert, that exception leaves the
    handler: the caller gets the error response, the table is untouched and
    no mail is queued. *)
Theorem flow_confirmation_response cfg db token reply random now :
  let out := flow_confirmation cfg db token reply random now in
  match status_code reply with
  | inr _ => respond (returned out) = ok_body
  | inl e =>
      returned out = inl e /\ respond (returned out) = respond (inl e)
      /\ orders out = db /\ queued out = []
  end.
Proof.
  intros out.
  pose proof (ConfirmationFacts.flow_confirmation_cases
                cfg db token reply random now) as C.
  fold out in C; destruct (status_code reply) as [e | code].
  - destruct C as (R & O & Q); rewrite R; auto.
  - destruct C as [R _]; now rewrite R.
Qed.

(** C3 does not hold as stated: a status query that raises, and a status
    that is not a number, both reach the webhook caller as a 500. *)
Lemma flow_confirmation_surfaces_gateway_errors :
  (let out := flow_confirmation Sample.cfg Sample.db1 (Some "T1"%string)
                (inl Py.RequestError) 7 "2026-01-01T00:05:00" in
   respond (returned out) = server_error
   /\ respond (returned out) <> ok_body)
  /\ (let out := flow_confirmation Sample.cfg Sample.db1 (Some "T1"%string)
                   (inr (Py.PDict [("status"%string, Py.PStr "abc")]))
                   7 "2026-01-01T00:05:00" in
      respond (returned out) = server_error
      /\ respond (returned out) <> ok_body).
Proof.
  split; (split; [reflexivity | discriminate]).
Qed.

Module MarkPaidFacts.
Import DbFacts.

Lemma find_exists {A} (f : A -> bool) l x :
  In x l -> f x = true -> exists y, find f l = Some y.
Proof.
  intros I T; destruct (find f l) as [y|] eqn:F; [eauto|].
  rewrite find_none_all in F; rewrite (F x I) in T; discriminate.
Qed.

(** After [db_mark_paid], every row of the token is paid and carries the
    download token that was written. *)
Lemma db_mark_paid_rows db token d now row :
  In row (db_mark_paid db (Some token) d now) ->
  Row.flow_token row = token ->
  Row.status row = 2 /\ Row.download_token row = Some d.
Proof.
  unfold db_mark_paid, mark_paid_row; rewrite in_map_iff.
  intros (x & E & _) T.
  destruct (has_flow_token (Some token) x) eqn:H; subst row; [simpl; auto|].
  simpl in H; apply String.eqb_neq in H; congruence.
Qed.

(** The oldest row of a token stays the oldest row of that token. *)
Lemma db_mark_paid_find db token t d now :
  find (has_flow_token token) (db_mark_paid db t d now) =
  option_map (mark_paid_row t d now) (find (has_flow_token token) db).
Proof.
  unfold db_mark_paid; apply find_map_stable.
  intros x; apply has_flow_token_mark_paid.
Qed.

(** Marking paid a second time with the same download token changes
    neither a status nor a download token. *)
Lemma db_mark_paid_again db token d now now' :
  map Row.download_token (db_mark_paid (db_mark_paid db token d now) token d now')
  = map Row.download_token (db_mark_paid db token d now)
  /\ map Row.status (db_mark_paid (db_mark_paid db token d now) token d now')
     = map Row.status (db_mark_paid db token d now).
Proof.
  unfold db_mark_paid; rewrite !map_map; split;
    apply map_ext; intros x;
    unfold mark_paid_row at 1; rewrite has_flow_token_mark_paid;
    unfold mark_paid_row;
    destruct (has_flow_token token x) eqn:H; reflexivity.
Qed.

(** The rows of the token are as many as before, and all paid. *)
Lemma db_mark_paid_count db token d now :
  List.length (paid_with_flow_token token (db_mark_paid db (Some token) d now))
  = List.length (with_flow_token token db).
Proof.
  unfold paid_with_flow_token, with_flow_token, db_mark_paid.
  induction db as [|x db IH]; [reflexivity|].
  cbn [map filter]; rewrite has_flow_token_mark_paid.
  destruct (has_flow_token (Some token) x) eqn:H; [|exact IH].
  unfold mark_paid_row at 1; rewrite H.
  cbn [filter Row.status Z.eqb Pos.eqb List.length]; now rewrite IH.
Qed.

Lemma with_flow_token_mark_paid db token t d now :
  List.length (with_flow_token token (db_mark_paid db t d now))
  = List.length (with_flow_token token db).
Proof.
  unfold with_flow_token, db_mark_paid.
  induction db as [|x db IH]; [reflexivity|].
  cbn [map filter]; rewrite has_flow_token_mark_paid.
  destruct (has_flow_token (Some token) x); cbn [filter List.length];
    now rewrite IH.
Qed.

End MarkPaidFacts.

(** C1. Take any order of the store and confirm its gateway token twice
    while the gateway reports status 2.  Both calls answer [{ok: true}]; one
    non-empty download token [d] is on every row of that gateway token after
    the first call and still after the second, so the second call reuses
    it; no status and no download token differs between the two tables;
    the paid rows of the token are as many as the store had rows of it:
    exactly one when the order is the only one of its gateway token; and
    [d] is the token the order had when it already had one. *)
Theorem confirm_twice_one_stable_token
    cfg db order reply1 reply2 random1 random2 now1 now2 :
  In order db ->
  status_code reply1 = inr 2 ->
  status_code reply2 = inr 2 ->
  let token := Row.flow_token order in
  let first := flow_confirmation cfg db (Some token) reply1 random1 now1 in
  let second :=
    flow_confirmation cfg (orders first) (Some token) reply2 random2 now2 in
  exists d,
    d <> ""%string
    /\ respond (returned first) = ok_body
    /\ respond (returned second) = ok_body
    /\ (forall row, In row (orders first) -> Row.flow_token row = token ->
          Row.status row = 2 /\ Row.download_token row = Some d)
    /\ (forall row, In row (orders second) -> Row.flow_token row = token ->
          Row.status row = 2 /\ Row.download_token row = Some d)
    /\ map Row.download_token (orders second)
       = map Row.download_token (orders first)
    /\ map Row.status (orders second) = map Row.status (orders first)
    /\ List.length (orders second) = List.length db
    /\ List.length (paid_with_flow_token token (orders second))
       = List.length (with_flow_token token db)
    /\ (with_flow_token token db = [order] ->
        List.length (paid_with_flow_token token (orders second)) = 1%nat)
    /\ queued second = queued first
    /\ (forall t, find (has_flow_token (Some token)) db = Some order ->
          Row.download_token order = Some t -> t <> ""%string -> d = t).
Proof.
  intros I S1 S2 token first second.
  destruct (@MarkPaidFacts.find_exists _ (has_flow_token (Some token)) db order I)
    as [oldest F]; [now apply DbFacts.has_flow_token_true|].
  set (d := or_mint (Row.download_token oldest) random1).
  pose proof (ConfirmationFacts.flow_confirmation_cases
                cfg db (Some token) reply1 random1 now1) as C1.
  fold first in C1; rewrite S1 in C1; simpl in C1; rewrite F in C1.
  destruct C1 as (R1 & O1 & Q1); fold d in O1, Q1.
  pose proof (ConfirmationFacts.flow_confirmation_cases
                cfg (orders first) (Some token) reply2 random2 now2) as C2.
  fold second in C2; rewrite S2 in C2; simpl in C2.
  rewrite O1, MarkPaidFacts.db_mark_paid_find, F in C2; simpl in C2.
  assert (T : has_flow_token (Some token) oldest = true)
    by (apply find_some in F; tauto).
  assert (E : or_mint (Some d) random2 = d) by apply DbFacts.or_mint_reuse.
  unfold mark_paid_row in C2; rewrite T in C2.
  cbn [Row.download_token Row.email] in C2.
  rewrite E in C2; destruct C2 as (R2 & O2 & Q2).
  exists d; repeat split.
  - apply DbFacts.truthy_nonempty, DbFacts.or_mint_truthy.
  - now rewrite R1.
  - now rewrite R2.
  - rewrite O1 in H; eapply MarkPaidFacts.db_mark_paid_rows; eauto.
  - rewrite O1 in H; eapply MarkPaidFacts.db_mark_paid_rows; eauto.
  - rewrite O2 in H; eapply MarkPaidFacts.db_mark_paid_rows; eauto.
  - rewrite O2 in H; eapply MarkPaidFacts.db_mark_paid_rows; eauto.
  - rewrite O2, O1; apply MarkPaidFacts.db_mark_paid_again.
  - rewrite O2, O1; apply MarkPaidFacts.db_mark_paid_again.
  - rewrite O2, !DbFacts.db_mark_paid_length; reflexivity.
  - rewrite O2, MarkPaidFacts.db_mark_paid_count.
    apply MarkPaidFacts.with_flow_token_mark_paid.
  - intros U; rewrite O2, MarkPaidFacts.db_mark_paid_count.
    rewrite MarkPaidFacts.with_flow_token_mark_paid; fold token.
    now rewrite U.
  - now rewrite Q2, Q1.
  - intros t F' D N; rewrite F in F'; injection F' as ->.
    unfold d, or_mint; rewrite D.
    apply DbFacts.truthy_nonempty in N; now rewrite N.
Qed.

(** ** Payment creation *)

Module CreateFacts.

(** The handler, by the ways its steps can end. *)
Lemma pay_create_cases cfg db payload random1 random2 now reply :
  let out := pay_create cfg db payload random1 random2 now reply in
  match strip_lower (Py.or_else (Py.get_default payload "email" Py.PNone)
                                (Py.PStr "")) with
  | inl e => returned out = inl e /\ orders out = db /\ sent out = []
  | inr email =>
      if is_valid_email email then
        let order_id := Uuid.to_str (Uuid.uuid4 random1) in
        let commerce_order := Uuid.to_str (Uuid.uuid4 random2) in
        sent out = [fst (flow_post cfg "/payment/create"
                           (pay_create_params cfg commerce_order email) reply)]
        /\ match reply with
           | inl e => returned out = inl e /\ orders out = db
           | inr data =>
               match Py.subscript data "token", Py.subscript data "url" with
               | inl e, _ => returned out = inl e /\ orders out = db
               | inr _, inl e => returned out = inl e /\ orders out = db
               | inr token, inr url =>
                   match db_create_order db order_id email commerce_order
                                         token now with
                   | inl e => returned out = inl e /\ orders out = db
                   | inr db' =>
                       returned out =
                       inr (JSONResponse 200
                              (Py.PDict
                                 [ ("ok", Py.PBool true);
                                   ("checkoutUrl",
                                    Py.PStr (Py.to_str url ++ "?token="
                                             ++ Py.to_str token));
                                   ("token", token) ]))
                       /\ orders out = db'
                   end
               end
           end
      else returned out = inl (Py.HTTPException 400
                                 ("Email inv" ++ a_acute ++ "lido"))
           /\ orders out = db /\ sent out = []
  end.
Proof.
  unfold pay_create, flow_post.
  destruct (strip_lower _) as [e | email]; [simpl; auto|].
  destruct (is_valid_email email); [|simpl; auto].
  cbv zeta; cbn [negb fst].
  destruct reply as [e | data]; [simpl; auto|].
  cbn [Py.bind].
  destruct (Py.subscript data "token") as [e | token]; [simpl; auto|].
  destruct (Py.subscript data "url") as [e | url]; [simpl; auto|].
  cbn [Py.bind].
  destruct (db_create_order _ _ _ _ _ _) as [e | db']; simpl; auto.
Qed.

(** A successful insert appends one pending row. *)
Lemma db_create_order_inr db order_id email commerce_order flow_token now db' :
  db_create_order db order_id email commerce_order flow_token now = inr db' ->
  exists token,
    sqlite_text flow_token = inr (Some token)
    /\ existsb (has_id order_id) db = false
    /\ db' = db ++ [ {| Row.id := order_id;
                        Row.created_at := now;
                        Row.email := email;
                        Row.commerce_order := commerce_order;
                        Row.flow_token := token;
                        Row.status := 1;
                        Row.download_token := None;
                        Row.paid_at := None |} ].
Proof.
  unfold db_create_order.
  destruct (sqlite_text flow_token) as [e | [token|]]; simpl; try discriminate.
  destruct (existsb (has_id order_id) db); [discriminate|].
  intros [= <-]; eauto.
Qed.

(** Whatever happens, the table is left as it was or one pending row
    longer. *)
Lemma pay_create_orders cfg db payload random1 random2 now reply :
  let out := pay_create cfg db payload random1 random2 now reply in
  orders out = db
  \/ exists row,
       orders out = db ++ [row]
       /\ Row.status row = 1 /\ Row.download_token row = None.
Proof.
  intros out.
  pose proof (pay_create_cases cfg db payload random1 random2 now reply) as C.
  cbv zeta in C; fold out in C; clearbody out; revert C.
  destruct (strip_lower _) as [e | email]; [tauto|].
  destruct (is_valid_email email); [|tauto].
  intros [_ C]; revert C.
  destruct reply as [e | data]; [tauto|].
  destruct (Py.subscript data "token") as [e | token]; [tauto|].
  destruct (Py.subscript data "url") as [e | url]; [tauto|].
  destruct (db_create_order _ _ _ _ _ _) as [e | db'] eqn:D; [tauto|].
  apply db_create_order_inr in D as (tok & _ & _ & ->).
  intros [_ C]; right; eexists; split; [apply C | split; reflexivity].
Qed.

End CreateFacts.

(** ** The invariant of the table, and how rows evolve *)

Module InvFacts.
Import DbFacts MarkPaidFacts.

Lemma history_ok_refl row : history_ok row row.
Proof.
  unfold history_ok; intuition.
Qed.

Lemma evolves_refl db : evolves db db.
Proof.
  intros i old H; exists old; split; [exact H | apply history_ok_refl].
Qed.

Lemma row_consistent_none row :
  row_consistent row -> Row.download_token row = None -> Row.status row = 1.
Proof.
  intros [[S _] | [_ (t & D & _)]] N; [exact S | congruence].
Qed.

Lemma row_consistent_some row t :
  row_consistent row -> Row.download_token row = Some t ->
  Row.status row = 2 /\ t <> ""%string.
Proof.
  intros [[_ D] | [S (t' & D & N)]] E; [congruence|].
  split; [exact S | congruence].
Qed.

Lemma history_ok_trans a b c :
  row_consistent a -> history_ok a b -> history_ok b c -> history_ok a c.
Proof.
  intros Ca (I1 & T1 & E1 & O1 & F1 & S1 & D1 & N1)
            (I2 & T2 & E2 & O2 & F2 & S2 & D2 & N2).
  unfold history_ok; repeat split; try congruence; auto.
  - now apply row_consistent_none.
  - destruct (Row.download_token b) as [t|] eqn:Db.
    + apply S2, N1; [assumption | congruence].
    + now apply N2.
Qed.

Lemma evolves_trans db1 db2 db3 :
  Forall row_consistent db1 ->
  evolves db1 db2 -> evolves db2 db3 -> evolves db1 db3.
Proof.
  intros C E1 E2 i a Ha.
  destruct (E1 i a Ha) as (b & Hb & H1).
  destruct (E2 i b Hb) as (c & Hc & H2).
  exists c; split; [exact Hc|].
  eapply history_ok_trans; eauto.
  rewrite Forall_forall in C; eapply C, nth_error_In; eauto.
Qed.

Lemma evolves_app db rows : evolves db (db ++ rows).
Proof.
  intros i old H; exists old; split; [|apply history_ok_refl].
  rewrite nth_error_app1; [exact H|].
  apply nth_error_Some; congruence.
Qed.

Lemma Inv_nil : Inv [].
Proof.
  split; [constructor|]; intros token first row F; discriminate.
Qed.

(** Appending a pending row keeps the invariant. *)
Lemma Inv_app_pending db row :
  Inv db -> Row.status row = 1 -> Row.download_token row = None ->
  Inv (db ++ [row]).
Proof.
  intros [C A] S D; split.
  - apply Forall_app; split; [exact C|].
    constructor; [left; auto | constructor].
  - intros token first r F I T P.
    apply in_app_or in I as [I | [<- | []]]; [|rewrite S in P; discriminate].
    destruct (@find_exists _ (has_flow_token (Some token)) db r I) as [y Fy];
      [apply has_flow_token_true; congruence|].
    rewrite find_app, Fy in F; injection F as <-.
    eapply A; eauto.
Qed.

Lemma mark_flow_token token d now row :
  Row.flow_token (mark_paid_row token d now row) = Row.flow_token row.
Proof. unfold mark_paid_row; now destruct (has_flow_token token row). Qed.

(** The write of [flow_confirmation] keeps the invariant: it writes the
    download token of the oldest row of the token, or a fresh one when
    that row has none. *)
Lemma Inv_mark_paid db token first random now :
  Inv db ->
  find (has_flow_token token) db = Some first ->
  Inv (db_mark_paid db token (or_mint (Row.download_token first) random) now).
Proof.
  intros [C A] F; unfold db_mark_paid.
  set (d := or_mint (Row.download_token first) random).
  split.
  - apply Forall_map; rewrite Forall_forall in *; intros x I.
    unfold mark_paid_row; destruct (has_flow_token token x); [|auto].
    right; simpl; split; [reflexivity|]; exists d; split; [reflexivity|].
    apply truthy_nonempty, or_mint_truthy.
  - intros t f' r' F' I' T' P'.
    fold (db_mark_paid db token d now) in F'.
    rewrite db_mark_paid_find in F'.
    destruct (find (has_flow_token (Some t)) db) as [f0|] eqn:F0;
      [|discriminate].
    injection F' as <-.
    apply in_map_iff in I' as (x & <- & I).
    rewrite mark_flow_token in T'.
    assert (Tf : Row.flow_token f0 = t).
    { apply find_some in F0 as [_ H]; apply has_flow_token_true in H.
      now injection H. }
    unfold mark_paid_row in *.
    destruct (has_flow_token token x) eqn:Hx.
    + apply has_flow_token_true in Hx.
      assert (Hf : has_flow_token token f0 = true)
        by (apply has_flow_token_true; congruence).
      now rewrite Hf.
    + assert (Hf : has_flow_token token f0 = false).
      { apply not_true_is_false; intros H.
        apply has_flow_token_true in H.
        assert (H' : has_flow_token token x = true)
          by (apply has_flow_token_true; congruence).
        congruence. }
      rewrite Hf; eapply A; eauto.
Qed.

(** That write changes no row against the history rules. *)
Lemma evolves_mark_paid db token first random now :
  Inv db ->
  find (has_flow_token token) db = Some first ->
  evolves db
    (db_mark_paid db token (or_mint (Row.download_token first) random) now).
Proof.
  intros [C A] F i old H; unfold db_mark_paid; rewrite nth_error_map, H; simpl.
  eexists; split; [reflexivity|].
  assert (I : In old db) by (eapply nth_error_In; eauto).
  assert (Co : row_consistent old)
    by (rewrite Forall_forall in C; auto).
  unfold mark_paid_row; destruct (has_flow_token token old) eqn:T;
    [|apply history_ok_refl].
  unfold history_ok; simpl; repeat split; auto.
  - intros t D; f_equal.
    destruct (row_consistent_some Co D) as [S N].
    apply has_flow_token_true in T; subst token.
    rewrite <- (A _ first old F I eq_refl S), D.
    unfold or_mint; apply truthy_nonempty in N; now rewrite N.
  - now apply row_consistent_none.
Qed.

Section Steps.

Variable cfg : Config.

Lemma step_orders db c :
  orders (step cfg db c) = db
  \/ (exists row, orders (step cfg db c) = db ++ [row]
                  /\ Row.status row = 1 /\ Row.download_token row = None)
  \/ (exists token first random now,
        find (has_flow_token token) db = Some first
        /\ orders (step cfg db c)
           = db_mark_paid db token
               (or_mint (Row.download_token first) random) now).
Proof.
  destruct c as [payload r1 r2 now reply | token reply random now | t]; simpl.
  - destruct (CreateFacts.pay_create_orders cfg db payload r1 r2 now reply)
      as [H | H]; auto.
  - pose proof (ConfirmationFacts.flow_confirmation_cases
                  cfg db token reply random now) as H; simpl in H.
    destruct (status_code reply) as [e | code]; [tauto|].
    destruct H as [_ H]; destruct (code =? 2); [|tauto].
    destruct (find (has_flow_token token) db) as [first|] eqn:F; [|tauto].
    right; right; exists token, first, random, now; tauto.
  - unfold download; destruct (db_get_by_download_token db t) as [[e s]|];
      [|now left].
    destruct (negb (s =? 2)); [now left|].
    destruct (PyStr.truthy (PRODUCT_DRIVE_URL cfg)); now left.
Qed.

Lemma Inv_step db c : Inv db -> Inv (orders (step cfg db c)).
Proof.
  intros I.
  destruct (step_orders db c)
    as [-> | [(row & -> & S & D) | (token & first & random & now & F & ->)]].
  - exact I.
  - now apply Inv_app_pending.
  - now apply Inv_mark_paid.
Qed.

Lemma evolves_step db c : Inv db -> evolves db (orders (step cfg db c)).
Proof.
  intros I.
  destruct (step_orders db c)
    as [-> | [(row & -> & S & D) | (token & first & random & now & F & ->)]].
  - apply evolves_refl.
  - apply evolves_app.
  - now apply evolves_mark_paid.
Qed.

Lemma reachable_Inv db : reachable cfg db -> Inv db.
Proof.
  induction 1; [apply Inv_nil | now apply Inv_step].
Qed.

Lemma reachable_run db calls : reachable cfg db -> reachable cfg (run cfg db calls).
Proof.
  revert db; induction calls as [|c calls IH]; intros db R; simpl; [exact R|].
  apply IH; now constructor.
Qed.

Lemma evolves_run db calls : Inv db -> evolves db (run cfg db calls).
Proof.
  revert db; induction calls as [|c calls IH]; intros db I; simpl.
  - apply evolves_refl.
  - eapply evolves_trans; [apply I | now apply evolves_step |].
    apply IH; now apply Inv_step.
Qed.

End Steps.

End InvFacts.

(** C2. From any reachable table, along any sequence of [pay_create],
    [flow_confirmation] and [download] calls, every order stays in its
    place with what was set at its creation, a paid order stays paid, a
    download token once assigned is never replaced nor removed, and a
    download token appears only on an order that goes from pending (1) to
    paid (2). *)
Theorem download_token_assigned_once cfg db calls :
  reachable cfg db -> evolves db (run cfg db calls).
Proof.
  intros R; apply InvFacts.evolves_run; exact (InvFacts.reachable_Inv R).
Qed.

(** The sample purchase, confirmed twice. *)
Lemma confirm_twice_one_stable_token_witness :
  In Sample.order1 Sample.db1
  /\ status_code Sample.paid = inr 2
  /\ exists d,
       d <> ""%string
       /\ forall row,
            In row (run Sample.cfg Sample.db1
                      [Sample.confirm 7; Sample.confirm 8]) ->
            Row.flow_token row = "T1"%string ->
            Row.status row = 2 /\ Row.download_token row = Some d.
Proof.
  assert (I : In Sample.order1 Sample.db1) by (left; vm_compute; reflexivity).
  split; [exact I|].
  split; [reflexivity|].
  destruct (@confirm_twice_one_stable_token Sample.cfg Sample.db1
              Sample.order1 Sample.paid Sample.paid 7 8
              "2026-01-01T00:05:00"%string "2026-01-01T00:05:00"%string)
    as (d & N & _ & _ & _ & H & _);
    [exact I | reflexivity | reflexivity |].
  exists d; split; [exact N | exact H].
Defined.

(** The sample purchase, then two confirmations. *)
Lemma download_token_assigned_once_witness :
  reachable Sample.cfg Sample.db1
  /\ evolves Sample.db1
       (run Sample.cfg Sample.db1 [Sample.confirm 7; Sample.confirm 8]).
Proof.
  assert (R : reachable Sample.cfg Sample.db1)
    by apply (reachable_step Sample.buy (reachable_init Sample.cfg)).
  split; [exact R|].
  apply (@download_token_assigned_once Sample.cfg Sample.db1
           [Sample.confirm 7; Sample.confirm 8] R).
Defined.

(** ** Downloads *)

Module DownloadFacts.
Import DbFacts.

Lemma descriptor_not_forbidden cfg : download_descriptor cfg <> forbidden.
Proof.
  unfold download_descriptor, forbidden.
  destruct (PyStr.truthy (PRODUCT_DRIVE_URL cfg)); discriminate.
Qed.

(** The handler, by what the lookup finds. *)
Lemma download_cases cfg db t :
  let out := download cfg db t in
  orders out = db /\ sent out = [] /\ queued out = []
  /\ respond (returned out) =
     match find (has_download_token t) db with
     | Some first =>
         if Row.status first =? 2 then download_descriptor cfg else forbidden
     | None => forbidden
     end.
Proof.
  unfold download, db_get_by_download_token, download_descriptor.
  destruct (find (has_download_token t) db) as [first|]; simpl; auto.
  destruct (Row.status first =? 2); simpl; auto.
  destruct (PyStr.truthy (PRODUCT_DRIVE_URL cfg)); simpl; auto.
Qed.

End DownloadFacts.

(** C4. [download] answers 403 when no order carries the download token
    or the order that carries it (the oldest, should several) is not paid,
    and hands out the redirect-or-file descriptor exactly when that order
    is paid; it never answers anything else and never writes.  On a
    reachable table every order that carries a download token is paid, so
    there the descriptor is handed out exactly when some paid order
    carries the token. *)
Theorem download_forbidden_unless_paid cfg db t :
  let out := download cfg db t in
  let r := respond (returned out) in
  orders out = db
  /\ (r = forbidden \/ r = download_descriptor cfg)
  /\ (r = forbidden <->
      (forall row, In row db -> Row.download_token row <> Some t)
      \/ exists first,
           find (has_download_token t) db = Some first
           /\ Row.status first <> 2)
  /\ (r = download_descriptor cfg <->
      exists first,
        find (has_download_token t) db = Some first /\ Row.status first = 2)
  /\ (reachable cfg db ->
      (r = download_descriptor cfg <->
       exists row,
         In row db /\ Row.download_token row = Some t /\ Row.status row = 2)).
Proof.
  intros out r.
  destruct (DownloadFacts.download_cases cfg db t) as (O & _ & _ & R).
  fold out in O, R; fold r in R.
  pose proof (@DownloadFacts.descriptor_not_forbidden cfg) as NF.
  assert (A : r = download_descriptor cfg <->
              exists first,
                find (has_download_token t) db = Some first
                /\ Row.status first = 2).
  { rewrite R; destruct (find (has_download_token t) db) as [first|] eqn:F.
    - destruct (Row.status first =? 2) eqn:S.
      + apply Z.eqb_eq in S; split; eauto.
      + apply Z.eqb_neq in S; split.
        * intros E; symmetry in E; contradiction.
        * intros (f & [= <-] & S'); contradiction.
    - split; [intros E; symmetry in E; contradiction|].
      intros (f & E & _); discriminate. }
  split; [exact O|].
  split.
  { rewrite R; destruct (find (has_download_token t) db) as [first|]; auto.
    destruct (Row.status first =? 2); auto. }
  split; [|split; [exact A|]].
  - rewrite R; destruct (find (has_download_token t) db) as [first|] eqn:F.
    + destruct (Row.status first =? 2) eqn:S.
      * apply Z.eqb_eq in S; split; [contradiction|].
        intros [H | (f & [= <-] & S')]; [|contradiction].
        apply find_some in F as [I T].
        apply DbFacts.has_download_token_true in T.
        now apply H in I.
      * apply Z.eqb_neq in S; split; eauto.
    + split; [|reflexivity]; intros _; left.
      apply DbFacts.db_get_by_download_token_none.
      unfold db_get_by_download_token; now rewrite F.
  - intros Re; rewrite A; split.
    + intros (first & F & S); exists first.
      apply find_some in F as [I T].
      apply DbFacts.has_download_token_true in T; auto.
    + intros (row & I & D & S).
      destruct (@MarkPaidFacts.find_exists _ (has_download_token t) db row I)
        as [first F]; [now apply DbFacts.has_download_token_true|].
      exists first; split; [exact F|].
      apply find_some in F as [I' T].
      apply DbFacts.has_download_token_true in T.
      destruct (InvFacts.reachable_Inv Re) as [C _].
      rewrite Forall_forall in C.
      now apply (InvFacts.row_consistent_some (C first I') T).
Qed.

(** The confirmed sample purchase: its token opens, another does not. *)
Lemma download_forbidden_unless_paid_witness :
  reachable Sample.cfg Sample.db2
  /\ respond (returned (download Sample.cfg Sample.db2 Sample.D1))
     = download_descriptor Sample.cfg
  /\ respond (returned (download Sample.cfg Sample.db2 "wrong"))
     = forbidden.
Proof.
  assert (R : reachable Sample.cfg Sample.db2).
  { apply (InvFacts.reachable_run [Sample.confirm 7]).
    apply (reachable_step Sample.buy (reachable_init Sample.cfg)). }
  split; [exact R|]; split.
  - destruct (@download_forbidden_unless_paid Sample.cfg Sample.db2 Sample.D1)
      as (_ & _ & _ & _ & H).
    apply (H R).
    exists (mark_paid_row (Some "T1"%string) Sample.D1
              "2026-01-01T00:05:00" Sample.order1).
    split; [left; vm_compute; reflexivity | split; reflexivity].
  - destruct (@download_forbidden_unless_paid Sample.cfg Sample.db2 "wrong")
      as (_ & _ & H & _).
    apply H; left; intros row I; vm_compute in I.
    destruct I as [<- | []]; discriminate.
Defined.

(** ** The address that [pay_create] works with *)

Module PayloadFacts.
Import PyStr PyStrFacts EmailFacts.

Lemma is_valid_email_empty : is_valid_email "" = false.
Proof. reflexivity. Qed.

Lemma normalize_empty : normalize "" = ""%string.
Proof. reflexivity. Qed.

(** A str under [email] is stripped and lowered, whatever it is. *)
Lemma strip_lower_str payload e :
  Py.get payload "email" = Some (Py.PStr e) ->
  strip_lower (Py.or_else (Py.get_default payload "email" Py.PNone)
                          (Py.PStr "")) = inr (normalize e).
Proof.
  intros G; unfold Py.get_default, Py.or_else; rewrite G; simpl.
  destruct e; reflexivity.
Qed.

(** An address that passes the check came from a str under [email]. *)
Lemma strip_lower_valid payload email :
  strip_lower (Py.or_else (Py.get_default payload "email" Py.PNone)
                          (Py.PStr "")) = inr email ->
  is_valid_email email = true ->
  exists e, Py.get payload "email" = Some (Py.PStr e) /\ email = normalize e.
Proof.
  unfold Py.get_default, Py.or_else.
  destruct (Py.get payload "email") as [v|]; simpl.
  - destruct v as [| b | z | s | l | d]; simpl.
    + intros [= <-] V; discriminate.
    + destruct b; simpl; [discriminate | intros [= <-] V; discriminate].
    + destruct (z =? 0); simpl; [intros [= <-] V | ]; discriminate.
    + intros H V; exists s; split; [reflexivity|].
      destruct s; simpl in H; now injection H.
    + destruct l; simpl; [intros [= <-] V | ]; discriminate.
    + destruct d; simpl; [intros [= <-] V | ]; discriminate.
  - intros [= <-] V; discriminate.
Qed.

Lemma pay_create_queued cfg db payload random1 random2 now reply :
  queued (pay_create cfg db payload random1 random2 now reply) = [].
Proof.
  unfold pay_create, flow_post.
  destruct (strip_lower _) as [e | email]; [reflexivity|].
  destruct (negb (is_valid_email email)); [reflexivity|].
  cbv zeta.
  match goal with |- queued (match ?c with _ => _ end) = _ =>
    destruct c as [e | [[db' u] tk]] end; reflexivity.
Qed.

End PayloadFacts.

(** C5. For a payload whose email passes the check once stripped and
    lowered, a gateway reply that carries a token and a url, and an order
    id that the table does not hold yet, [pay_create] returns the checkout
    URL made of the gateway's url, [?token=] and the gateway's token, and
    the table gains exactly one row: pending (1), no download token, the
    normalized email, and that gateway token. *)
Theorem pay_create_persists_pending_order
    cfg db payload e random1 random2 now reply data token url :
  Py.get payload "email" = Some (Py.PStr e) ->
  is_valid_email (normalize e) = true ->
  reply = inr data ->
  Py.subscript data "token" = inr (Py.PStr token) ->
  Py.subscript data "url" = inr (Py.PStr url) ->
  existsb (has_id (Uuid.to_str (Uuid.uuid4 random1))) db = false ->
  let out := pay_create cfg db payload random1 random2 now reply in
  respond (returned out)
  = JSONResponse 200
      (Py.PDict [ ("ok", Py.PBool true);
                  ("checkoutUrl", Py.PStr (url ++ "?token=" ++ token));
                  ("token", Py.PStr token) ])
  /\ orders out
     = db ++ [ {| Row.id := Uuid.to_str (Uuid.uuid4 random1);
                  Row.created_at := now;
                  Row.email := normalize e;
                  Row.commerce_order := Uuid.to_str (Uuid.uuid4 random2);
                  Row.flow_token := token;
                  Row.status := 1;
                  Row.download_token := None;
                  Row.paid_at := None |} ]
  /\ List.length (orders out) = S (List.length db)
  /\ queued out = [].
Proof.
  intros G V -> T U Fresh out.
  pose proof (CreateFacts.pay_create_cases
                cfg db payload random1 random2 now (inr data)) as C.
  cbv zeta in C; fold out in C.
  rewrite (PayloadFacts.strip_lower_str _ G), V, T, U in C.
  unfold db_create_order in C; simpl in C; rewrite Fresh in C; simpl in C.
  destruct C as (_ & R & O); rewrite R, O; simpl.
  repeat split; [|apply PayloadFacts.pay_create_queued].
  rewrite length_app; simpl; lia.
Qed.

(** The scenario of the sample purchase. *)
Lemma pay_create_persists_pending_order_witness :
  is_valid_email (normalize "buyer@x.com") = true
  /\ Py.subscript (Py.PDict [("token"%string, Py.PStr "T1");
                             ("url"%string, Py.PStr "https://gw/pay")])
                  "token" = inr (Py.PStr "T1")
  /\ (let out := step Sample.cfg [] Sample.buy in
      respond (returned out)
      = JSONResponse 200
          (Py.PDict [ ("ok"%string, Py.PBool true);
                      ("checkoutUrl"%string,
                       Py.PStr "https://gw/pay?token=T1");
                      ("token"%string, Py.PStr "T1") ])
      /\ orders out = [Sample.order1]).
Proof.
  split; [vm_compute; reflexivity|].
  split; [reflexivity|].
  destruct (@pay_create_persists_pending_order Sample.cfg []
              [("email"%string, Py.PStr "buyer@x.com")] "buyer@x.com"%string
              1 2 "2026-01-01T00:00:00"%string Sample.created
              (Py.PDict [("token"%string, Py.PStr "T1");
                         ("url"%string, Py.PStr "https://gw/pay")])
              "T1"%string "https://gw/pay"%string)
    as (R & O & _);
    [ reflexivity | vm_compute; reflexivity | reflexivity | reflexivity
    | reflexivity | reflexivity | ].
  split; [exact R|].
  change (orders (step Sample.cfg [] Sample.buy))
    with (orders (pay_create Sample.cfg []
                    [("email"%string, Py.PStr "buyer@x.com")] 1 2
                    "2026-01-01T00:00:00" Sample.created)).
  rewrite O; vm_compute; reflexivity.
Defined.

(** C6. When the submitted address, stripped and lowered, is not of the
    shape [local@domain.tld] -- which is so in particular when the input
    holds no [@], or no dot after its [@] -- [pay_create] answers 400 and
    touches nothing: the table is the same, no request went to the
    gateway, no task is queued. *)
Theorem pay_create_rejects_malformed_email
    cfg db payload e random1 random2 now reply :
  Py.get payload "email" = Some (Py.PStr e) ->
  ~ email_shape (PyStr.chars (normalize e))
  \/ ~ In "@"%char (PyStr.chars e)
  \/ (exists local domain,
        PyStr.chars e = local ++ "@"%char :: domain
        /\ ~ In "."%char domain) ->
  let out := pay_create cfg db payload random1 random2 now reply in
  respond (returned out) = invalid_input
  /\ orders out = db /\ sent out = [] /\ queued out = [].
Proof.
  intros G M out.
  assert (V : is_valid_email (normalize e) = false).
  { destruct M as [M | [M | (l & d & E & M)]].
    - apply not_true_is_false; intros V; apply M.
      now apply EmailFacts.is_valid_email_normalize.
    - now apply EmailFacts.no_at_invalid.
    - eapply EmailFacts.no_dot_invalid; eauto. }
  pose proof (CreateFacts.pay_create_cases
                cfg db payload random1 random2 now reply) as C.
  cbv zeta in C; fold out in C.
  rewrite (PayloadFacts.strip_lower_str _ G), V in C.
  destruct C as (R & O & S); rewrite R.
  repeat split; auto; apply PayloadFacts.pay_create_queued.
Qed.

(** An address without [@]. *)
Lemma pay_create_rejects_malformed_email_witness :
  ~ In "@"%char (PyStr.chars "buyer.x.com")
  /\ (let out := pay_create Sample.cfg Sample.db1
                   [("email"%string, Py.PStr "buyer.x.com")] 3 4
                   "2026-01-01T00:10:00" Sample.created in
      respond (returned out) = invalid_input
      /\ orders out = Sample.db1 /\ sent out = [] /\ queued out = []).
Proof.
  assert (N : ~ In "@"%char (PyStr.chars "buyer.x.com")).
  { simpl; intros H.
    repeat (destruct H as [H | H]; [discriminate|]); exact H. }
  split; [exact N|].
  apply (@pay_create_rejects_malformed_email Sample.cfg Sample.db1
           [("email"%string, Py.PStr "buyer.x.com")] "buyer.x.com"%string
           3 4 "2026-01-01T00:10:00"%string Sample.created);
    [reflexivity | right; left; exact N].
Defined.

(** C7. For an address that passes the check, when the exchange with the
    gateway raises, or its reply cannot be subscripted by [token] or by
    [url], that exception leaves [pay_create] and the table is as it
    was: the insert is never reached. *)
Theorem pay_create_gateway_failure_persists_nothing
    cfg db payload e random1 random2 now reply err :
  Py.get payload "email" = Some (Py.PStr e) ->
  is_valid_email (normalize e) = true ->
  gateway_failure reply = Some err ->
  let out := pay_create cfg db payload random1 random2 now reply in
  returned out = inl err
  /\ respond (returned out) = respond (inl err)
  /\ orders out = db /\ queued out = [].
Proof.
  intros G V F out.
  pose proof (CreateFacts.pay_create_cases
                cfg db payload random1 random2 now reply) as C.
  cbv zeta in C; fold out in C.
  rewrite (PayloadFacts.strip_lower_str _ G), V in C.
  destruct C as [_ C]; unfold gateway_failure in F.
  assert (H : returned out = inl err /\ orders out = db).
  { destruct reply as [x | data]; [now injection F as <-|].
    destruct (Py.subscript data "token") as [x | tk];
      [now injection F as <-|].
    destruct (Py.subscript data "url") as [x | u];
      [now injection F as <- | discriminate]. }
  destruct H as [R O]; rewrite R.
  repeat split; auto; apply PayloadFacts.pay_create_queued.
Qed.

(** A gateway that answers an error object. *)
Lemma pay_create_gateway_failure_persists_nothing_witness :
  is_valid_email (normalize "buyer@x.com") = true
  /\ gateway_failure (inr (Py.PDict [("code"%string, Py.PInt 401)]))
     = Some (Py.KeyError "token")
  /\ (let out := pay_create Sample.cfg Sample.db1
                   [("email"%string, Py.PStr "buyer@x.com")] 3 4
                   "2026-01-01T00:10:00"
                   (inr (Py.PDict [("code"%string, Py.PInt 401)])) in
      returned out = inl (Py.KeyError "token")
      /\ respond (returned out) = server_error
      /\ orders out = Sample.db1 /\ queued out = []).
Proof.
  split; [vm_compute; reflexivity|].
  split; [reflexivity|].
  apply (@pay_create_gateway_failure_persists_nothing Sample.cfg Sample.db1
           [("email"%string, Py.PStr "buyer@x.com")] "buyer@x.com"%string
           3 4 "2026-01-01T00:10:00"%string
           (inr (Py.PDict [("code"%string, Py.PInt 401)]))
           (Py.KeyError "token"));
    [reflexivity | vm_compute; reflexivity | reflexivity].
Defined.

(** C10. Whatever the request body, [pay_create] either leaves the table
    as it was, or the body held a str under [email] whose stripped,
    lowered form passed the check, went to the gateway as the [email]
    parameter, and is the email of the one row added.  So a stored email is
    always the normalized input; [" Buyer@X.com "] is accepted and stored
    as ["buyer@x.com"]. *)
Theorem pay_create_normalizes_email :
  (forall cfg db payload random1 random2 now reply,
     let out := pay_create cfg db payload random1 random2 now reply in
     orders out = db
     \/ exists e row,
          Py.get payload "email" = Some (Py.PStr e)
          /\ is_valid_email (normalize e) = true
          /\ sent out =
             [fst (flow_post cfg "/payment/create"
                     (pay_create_params cfg
                        (Uuid.to_str (Uuid.uuid4 random2)) (normalize e))
                     reply)]
          /\ Py.get (pay_create_params cfg
                       (Uuid.to_str (Uuid.uuid4 random2)) (normalize e))
                    "email" = Some (Py.PStr (normalize e))
          /\ orders out = db ++ [row]
          /\ Row.email row = normalize e)
  /\ normalize " Buyer@X.com " = "buyer@x.com"%string
  /\ is_valid_email " Buyer@X.com " = false
  /\ (let out := pay_create Sample.cfg []
                   [("email"%string, Py.PStr " Buyer@X.com ")] 1 2
                   "2026-01-01T00:00:00" Sample.created in
      orders out = [Sample.order1]).
Proof.
  split; [|repeat split; vm_compute; reflexivity].
  intros cfg db payload random1 random2 now reply out.
  pose proof (CreateFacts.pay_create_cases
                cfg db payload random1 random2 now reply) as C.
  cbv zeta in C; fold out in C; clearbody out; revert C.
  destruct (strip_lower _) as [x | email] eqn:SL; [tauto|].
  destruct (is_valid_email email) eqn:V; [|tauto].
  destruct (PayloadFacts.strip_lower_valid _ SL V) as (e & G & ->).
  intros [S C]; revert C.
  destruct reply as [x | data]; [tauto|].
  destruct (Py.subscript data "token") as [x | token]; [tauto|].
  destruct (Py.subscript data "url") as [x | url]; [tauto|].
  destruct (db_create_order _ _ _ _ _ _) as [x | db'] eqn:D; [tauto|].
  apply CreateFacts.db_create_order_inr in D as (tok & _ & _ & ->).
  intros [_ O]; right; exists e; eexists.
  split; [exact G|]. split; [exact V|]. split; [exact S|].
  split; [reflexivity|]. split; [exact O | reflexivity].
Qed.

(** ** Request signing *)

Module SignFacts.

Lemma insert_item_perm kv l : Permutation (insert_item kv l) (kv :: l).
Proof.
  induction l as [|x l IH]; simpl; [reflexivity|].
  destruct (String.leb (fst kv) (fst x)); [reflexivity|].
  rewrite IH; apply perm_swap.
Qed.

(** [sorted] keeps the items, each as often as it was there. *)
Lemma sorted_items_perm params : Permutation (sorted_items params) params.
Proof.
  induction params as [|kv l IH]; simpl; [constructor|].
  rewrite insert_item_perm; now constructor.
Qed.

Lemma insert_item_hd a kv l :
  key_le a kv -> HdRel key_le a l -> HdRel key_le a (insert_item kv l).
Proof.
  intros K H; destruct l as [|x l]; simpl; [now constructor|].
  destruct (String.leb (fst kv) (fst x)); constructor; auto.
  now inversion H.
Qed.

Lemma insert_item_sorted kv l :
  Sorted key_le l -> Sorted key_le (insert_item kv l).
Proof.
  induction 1 as [|x l S IH H]; simpl; [repeat constructor|].
  destruct (String.leb (fst kv) (fst x)) eqn:L.
  - repeat constructor; auto.
  - constructor; [exact IH|].
    apply insert_item_hd; [|exact H].
    unfold key_le; destruct (String.leb_total (fst x) (fst kv)); congruence.
Qed.

(** [sorted] puts the items in the order of their keys. *)
Lemma sorted_items_sorted params : Sorted key_le (sorted_items params).
Proof.
  induction params as [|kv l IH]; simpl; [constructor|].
  now apply insert_item_sorted.
Qed.

Lemma in_set d k v : In (k, v) (Py.set d k v).
Proof.
  induction d as [|[k' v'] d IH]; simpl; [now left|].
  destruct (String.eqb k' k); [now left | now right].
Qed.

Lemma get_set d k v : Py.get (Py.set d k v) k = Some v.
Proof.
  induction d as [|[k' v'] d IH]; simpl.
  - now rewrite String.eqb_refl.
  - destruct (String.eqb k' k) eqn:E; simpl; [now rewrite String.eqb_refl|].
    now rewrite E.
Qed.

Lemma get_set_other d k v k' :
  k <> k' -> Py.get (Py.set d k v) k' = Py.get d k'.
Proof.
  intros N; induction d as [|[k0 v0] d IH]; simpl.
  - apply String.eqb_neq in N; now rewrite N.
  - destruct (String.eqb k0 k) eqn:E; simpl.
    + apply String.eqb_eq in E; subst k0.
      apply String.eqb_neq in N; now rewrite N.
    + now rewrite IH.
Qed.

End SignFacts.

(** C8, as the code has it.  [flow_post] first stores the API key in the
    parameter map and then signs the map as it then is: the signature is
    the HMAC-SHA256, keyed by the secret, of the key+value texts of all
    parameters, the API key among them, taken in the order of their keys;
    only the signature [s] is added after signing.  [flow_get_status] does
    the same with the map of [apiKey] and [token]. *)
Theorem flow_post_signs_params_with_api_key cfg params token :
  let key := Py.PStr (FLOW_API_KEY cfg) in
  let secret := FLOW_SECRET_KEY cfg in
  let signed := Py.set params "apiKey" key in
  let items := sorted_items signed in
  let signature (items : list (string * Py.value)) :=
    Hash.hexdigest
      (Hash.hmac_sha256 (Hash.encode secret)
                        (Hash.encode (concat_items items))) in
  Permutation items signed
  /\ Sorted key_le items
  /\ In ("apiKey"%string, key) items
  /\ flow_post_params cfg params
     = Py.set signed "s" (Py.PStr (signature items))
  /\ Py.get (flow_post_params cfg params) "s"
     = Some (Py.PStr (signature items))
  /\ Py.get (flow_post_params cfg params) "apiKey" = Some key
  /\ flow_get_status_params cfg token
     = [ ("apiKey"%string, key); ("token"%string, token);
         ("s"%string,
          Py.PStr (signature
                     (sorted_items [ ("apiKey"%string, key);
                                     ("token"%string, token) ]))) ].
Proof.
  intros key secret signed items signature.
  assert (P : Permutation items signed) by apply SignFacts.sorted_items_perm.
  split; [exact P|].
  split; [apply SignFacts.sorted_items_sorted|].
  split.
  { eapply Permutation_in; [symmetry; exact P | apply SignFacts.in_set]. }
  split; [reflexivity|].
  split; [apply SignFacts.get_set|].
  split; [|reflexivity].
  unfold flow_post_params.
  rewrite SignFacts.get_set_other by discriminate.
  apply SignFacts.get_set.
Qed.

(** C8 does not hold as stated: the API key is part of what is signed.
    For the parameter [token=T1], key [K] and secret [S], the signed text
    is [apiKeyKtokenT1], and the signature that is submitted is not the
    one of the parameters without the API key. *)
Lemma api_key_is_signed :
  let params := [("token"%string, Py.PStr "T1")] in
  let submitted := flow_post_params Sample.cfg params in
  flow_sign_raw (Py.set params "apiKey" (Py.PStr "K")) = "apiKeyKtokenT1"%string
  /\ Py.get submitted "s"
     = Some (Py.PStr (flow_sign (Py.set params "apiKey" (Py.PStr "K")) "S"))
  /\ Py.get submitted "s" <> Some (Py.PStr (flow_sign params "S")).
Proof.
  split; [vm_compute; reflexivity|].
  split; [vm_compute; reflexivity|].
  vm_compute; discriminate.
Qed.

(** ** The embedding at work *)

Module Examples.

Example round_constants :
  nth 0 Hash.K 0 = 0x428a2f98 /\ nth 63 Hash.K 0 = 0xc67178f2
  /\ fst Hash.H0 = (0x6a09e667, 0xbb67ae85, 0x3c6ef372, 0xa54ff53a,
                    0x510e527f, 0x9b05688c, 0x1f83d9ab).
Proof. repeat split; vm_compute; reflexivity. Qed.

Example sha256_abc :
  Hash.hexdigest (Hash.sha256 (Hash.encode "abc"))
  = "ba7816bf8f01cfea414140de5dae2223b00361a396177a9cb410ff61f20015ad"%string.
Proof. vm_compute; reflexivity. Qed.

Example hmac_sha256_fox :
  Hash.hexdigest
    (Hash.hmac_sha256 (Hash.encode "key")
       (Hash.encode "The quick brown fox jumps over the lazy dog"))
  = "f7bc83f430538424b13298e6aa6fb143ef4d59a14946175997479dbc2d1a3cd8"%string.
Proof. vm_compute; reflexivity. Qed.

Example uuid4_bits :
  Uuid.to_str (Uuid.uuid4 (2 ^ 128 - 1))
  = "ffffffff-ffff-4fff-bfff-ffffffffffff"%string
  /\ Uuid.hex (Uuid.uuid4 0) = "00000000000040008000000000000000"%string.
Proof. split; vm_compute; reflexivity. Qed.

Example urlencode_params :
  Url.urlencode [ ("a b", Py.PStr "x&y=z~/"); ("amount", Py.PInt 350);
                  ("none", Py.PNone) ]
  = "a+b=x%26y%3Dz~%2F&amount=350&none=None"%string.
Proof. vm_compute; reflexivity. Qed.

Example to_int_values :
  map Py.to_int [ Py.PInt 2; Py.PStr " 2 "; Py.PStr "1_0"; Py.PBool true;
                  Py.PStr "abc"; Py.PStr "2__0"; Py.PNone ]
  = [ inr 2; inr 2; inr 10; inr 1;
      inl Py.ValueError; inl Py.ValueError; inl Py.TypeError ].
Proof. vm_compute; reflexivity. Qed.

Example status_code_default : status_code (inr (Py.PDict [])) = inr 0.
Proof. reflexivity. Qed.

Example is_valid_email_samples :
  map is_valid_email [ "buyer@x.com"; "buyer.x.com"; "buyer@xcom";
                       "a@b@c.d"; "a b@c.d"; " buyer@x.com "; "a@b.c.d" ]
  = [ true; false; false; false; false; false; true ].
Proof. vm_compute; reflexivity. Qed.

(** The scenario of a purchase: created, confirmed, downloaded. *)
Example purchase_scenario :
  Sample.db1 = [Sample.order1]
  /\ Sample.db2
     = [ mark_paid_row (Some "T1"%string) Sample.D1 "2026-01-01T00:05:00"
           Sample.order1 ]
  /\ respond (returned (download Sample.cfg Sample.db1 Sample.D1)) = forbidden
  /\ respond (returned (download Sample.cfg Sample.db2 Sample.D1))
     = FileResponse "products/pack_ia_pymes_2026.zip" "application/zip".
Proof. repeat split; vm_compute; reflexivity. Qed.

End Examples.

(** * Further properties *)

(** ** Validation and normalization of addresses *)

Module NormalizeFacts.
Import PyStr PyStrFacts EmailFacts.

Lemma lower_char_eqb_newline c :
  Ascii.eqb (lower_char c) newline = Ascii.eqb c newline.
Proof. destruct c as [[] [] [] [] [] [] [] []]; reflexivity. Qed.

Lemma lstrip_map_lower l :
  lstrip_chars (map lower_char l) = map lower_char (lstrip_chars l).
Proof.
  induction l as [|c l IH]; simpl; [reflexivity|].
  rewrite is_space_lower_char; now destruct (is_space c).
Qed.

Lemma rstrip_map_lower l :
  rstrip_chars (map lower_char l) = map lower_char (rstrip_chars l).
Proof.
  unfold rstrip_chars; now rewrite <- map_rev, lstrip_map_lower, map_rev.
Qed.

(** Stripping and lowering commute. *)
Lemma strip_lower_comm s : strip (lower s) = lower (strip s).
Proof.
  unfold strip, lower; rewrite !chars_str.
  now rewrite lstrip_map_lower, rstrip_map_lower.
Qed.

Lemma lstrip_idem l : lstrip_chars (lstrip_chars l) = lstrip_chars l.
Proof.
  destruct (lstrip_chars l) as [|c r] eqn:E; [reflexivity|].
  apply lstrip_chars_head in E; simpl; now rewrite E.
Qed.

Lemma rstrip_idem l : rstrip_chars (rstrip_chars l) = rstrip_chars l.
Proof.
  unfold rstrip_chars; now rewrite rev_involutive, lstrip_idem.
Qed.

Lemma lstrip_rstrip_lstrip l :
  lstrip_chars (rstrip_chars (lstrip_chars l)) = rstrip_chars (lstrip_chars l).
Proof.
  destruct (rstrip_chars_split (lstrip_chars l)) as [post [E _]].
  destruct (rstrip_chars (lstrip_chars l)) as [|c r]; [reflexivity|].
  simpl in E; apply lstrip_chars_head in E; simpl; now rewrite E.
Qed.

Lemma strip_idem s : strip (strip s) = strip s.
Proof.
  unfold strip; rewrite chars_str.
  now rewrite lstrip_rstrip_lstrip, rstrip_idem.
Qed.

Lemma lower_idem s : lower (lower s) = lower s.
Proof.
  unfold lower; rewrite chars_str, map_map; f_equal.
  apply map_ext; intros c; apply lower_char_idem.
Qed.

(** The shape with a final newline is kept by lowering, both ways. *)
Lemma newline_shape_lower l :
  (exists s', map lower_char l = s' ++ [newline] /\ email_shape s')
  <-> (exists s', l = s' ++ [newline] /\ email_shape s').
Proof.
  split.
  - intros (s' & E & S).
    apply map_eq_app in E as (l1 & l2 & -> & <- & E).
    destruct l2 as [|c [|c' l2]]; try discriminate.
    injection E as E.
    assert (c = newline) as ->.
    { apply Ascii.eqb_eq; rewrite <- lower_char_eqb_newline.
      now apply Ascii.eqb_eq. }
    exists l1; split; [reflexivity | now apply email_shape_lower].
  - intros (s' & -> & S); exists (map lower_char s'); split.
    + now rewrite map_app.
    + now apply email_shape_lower.
Qed.

Lemma normalize_idem email : normalize (normalize email) = normalize email.
Proof.
  unfold normalize; now rewrite strip_lower_comm, lower_idem, strip_idem.
Qed.

End NormalizeFacts.

(** X1. [is_valid_email] accepts exactly the strings made of a non-empty
    local part, [@], a non-empty domain, a dot and a non-empty last label,
    none of which holds an [@] or a blank -- and, because [$] also matches
    before a final newline, such a string followed by one newline. *)
Theorem is_valid_email_language email :
  is_valid_email email = true <->
  email_shape (PyStr.chars email)
  \/ exists s', PyStr.chars email = s' ++ [newline] /\ email_shape s'.
Proof. apply EmailFacts.is_valid_email_spec. Qed.

(** X2. Whether an address is valid does not depend on the case of its
    letters. *)
Theorem is_valid_email_ignores_case email :
  is_valid_email (PyStr.lower email) = is_valid_email email.
Proof.
  apply eq_true_iff_eq.
  rewrite !EmailFacts.is_valid_email_spec, PyStrFacts.chars_lower.
  now rewrite EmailFacts.email_shape_lower, NormalizeFacts.newline_shape_lower.
Qed.

(** X3. The normalization of [pay_create] is idempotent: an address that
    was stripped and lowered is left as it is by stripping and lowering it
    again. *)
Theorem normalize_idempotent email :
  normalize (normalize email) = normalize email.
Proof. apply NormalizeFacts.normalize_idem. Qed.

(** ** What every reachable table satisfies *)

Module ReachFacts.
Import DbFacts MarkPaidFacts InvFacts.

Lemma hex_length n z : List.length (Py.hex n z) = n.
Proof.
  revert z; induction n as [|n IH]; intros z; [reflexivity|].
  cbn [Py.hex]; rewrite length_app, IH; simpl; lia.
Qed.

Lemma hex_digit_is_hex z : is_hex_digit (Py.hex_digit (Z.land z 15)) = true.
Proof.
  change 15 with (Z.ones 4); rewrite Z.land_ones by lia.
  pose proof (Z.mod_pos_bound z (2 ^ 4) ltac:(lia)) as B.
  set (m := z mod 2 ^ 4) in *.
  assert (H : m = 0 \/ m = 1 \/ m = 2 \/ m = 3 \/ m = 4 \/ m = 5 \/ m = 6
              \/ m = 7 \/ m = 8 \/ m = 9 \/ m = 10 \/ m = 11 \/ m = 12
              \/ m = 13 \/ m = 14 \/ m = 15) by lia.
  repeat (destruct H as [-> | H]; [reflexivity|]); subst m; now rewrite H.
Qed.

Lemma hex_all_hex n z : forallb is_hex_digit (Py.hex n z) = true.
Proof.
  revert z; induction n as [|n IH]; intros z; [reflexivity|].
  cbn [Py.hex]; rewrite forallb_app, IH; simpl.
  now rewrite hex_digit_is_hex.
Qed.

Lemma str_length l : String.length (PyStr.str l) = List.length l.
Proof. induction l as [|c l IH]; simpl; [reflexivity | now rewrite IH]. Qed.

(** What [uuid4().hex] gives is a token. *)
Lemma uuid_hex_is_token u : is_token (Uuid.hex u).
Proof.
  unfold is_token, Uuid.hex; split.
  - now rewrite str_length, hex_length.
  - rewrite PyStrFacts.chars_str; apply hex_all_hex.
Qed.

Lemma is_token_truthy d : is_token d -> PyStr.truthy d = true.
Proof. intros [L _]; destruct d; [discriminate | reflexivity]. Qed.

(** [existing_token or uuid4().hex] is a token when the existing one is. *)
Lemma or_mint_is_token existing random :
  (forall t, existing = Some t -> is_token t) ->
  is_token (or_mint existing random).
Proof.
  intros H; unfold or_mint; destruct existing as [t|];
    [|apply uuid_hex_is_token].
  destruct (PyStr.truthy t); [now apply H | apply uuid_hex_is_token].
Qed.

Section Steps.

Variable cfg : Config.

(** One call leaves the table as it was, or appends the pending row of a
    validated address under an id that was not there, or marks paid from
    the oldest row of a gateway token. *)
Lemma step_cases db c :
  orders (step cfg db c) = db
  \/ (exists e order_id commerce_order token now,
        is_valid_email (normalize e) = true
        /\ existsb (has_id order_id) db = false
        /\ orders (step cfg db c)
           = db ++ [ {| Row.id := order_id;
                        Row.created_at := now;
                        Row.email := normalize e;
                        Row.commerce_order := commerce_order;
                        Row.flow_token := token;
                        Row.status := 1;
                        Row.download_token := None;
                        Row.paid_at := None |} ])
  \/ (exists token first random now,
        find (has_flow_token token) db = Some first
        /\ orders (step cfg db c)
           = db_mark_paid db token
               (or_mint (Row.download_token first) random) now).
Proof.
  destruct c as [payload r1 r2 now reply | token reply random now | t].
  - cbn [step].
    pose proof (CreateFacts.pay_create_cases cfg db payload r1 r2 now reply)
      as C; cbv zeta in C; revert C.
    set (out := pay_create cfg db payload r1 r2 now reply); clearbody out.
    destruct (strip_lower _) as [x | email] eqn:SL; [tauto|].
    destruct (is_valid_email email) eqn:V; [|tauto].
    destruct (PayloadFacts.strip_lower_valid _ SL V) as (e & G & ->).
    intros [_ C]; revert C.
    destruct reply as [x | data]; [tauto|].
    destruct (Py.subscript data "token") as [x | tk]; [tauto|].
    destruct (Py.subscript data "url") as [x | url]; [tauto|].
    destruct (db_create_order _ _ _ _ _ _) as [x | db'] eqn:D; [tauto|].
    apply CreateFacts.db_create_order_inr in D as (tok & _ & Fresh & ->).
    intros [_ O]; right; left.
    exists e, (Uuid.to_str (Uuid.uuid4 r1)), (Uuid.to_str (Uuid.uuid4 r2)),
      tok, now; auto.
  - destruct (InvFacts.step_orders cfg db (FlowConfirmation token reply random now))
      as [H | [(row & H & _) | H]]; [now left | | now right; right].
    exfalso; cbn [step] in H.
    pose proof (ConfirmationFacts.flow_confirmation_cases
                  cfg db token reply random now) as C; cbv zeta in C.
    assert (L : List.length (orders (flow_confirmation cfg db token reply
                                       random now)) = List.length db).
    { destruct (status_code reply) as [x | code]; [now destruct C as (_ & -> & _)|].
      destruct C as [_ C]; destruct (code =? 2); [|now destruct C as [-> _]].
      destruct (find (has_flow_token token) db);
        destruct C as [-> _]; [apply db_mark_paid_length | reflexivity]. }
    rewrite H, length_app in L; simpl in L; lia.
  - left; apply (DownloadFacts.download_cases cfg db t).
Qed.

(** A property of rows that new rows have and that marking paid keeps
    holds of every row of every reachable table. *)
Lemma reachable_Forall (P : Row.t -> Prop) :
  (forall e order_id commerce_order token now,
     is_valid_email (normalize e) = true ->
     P {| Row.id := order_id;
          Row.created_at := now;
          Row.email := normalize e;
          Row.commerce_order := commerce_order;
          Row.flow_token := token;
          Row.status := 1;
          Row.download_token := None;
          Row.paid_at := None |}) ->
  (forall first row token random now,
     P first -> P row ->
     P (mark_paid_row token (or_mint (Row.download_token first) random)
          now row)) ->
  forall db, reachable cfg db -> Forall P db.
Proof.
  intros Hnew Hmark db R; induction R as [|db c R IH]; [constructor|].
  destruct (step_cases db c)
    as [-> | [(e & i & co & tk & now & V & _ & ->)
             | (token & first & random & now & F & ->)]].
  - exact IH.
  - apply Forall_app; split; [exact IH|].
    constructor; [now apply Hnew | constructor].
  - unfold db_mark_paid; apply Forall_map.
    rewrite Forall_forall in *; intros row I.
    apply Hmark; [|now apply IH].
    apply IH; apply find_some in F; tauto.
Qed.

Lemma map_id_mark_paid db token d now :
  map Row.id (db_mark_paid db token d now) = map Row.id db.
Proof.
  unfold db_mark_paid; rewrite map_map; apply map_ext; intros row.
  unfold mark_paid_row; now destruct (has_flow_token token row).
Qed.

Lemma reachable_ids db : reachable cfg db -> NoDup (map Row.id db).
Proof.
  intros R; induction R as [|db c R IH]; [constructor|].
  destruct (step_cases db c)
    as [-> | [(e & i & co & tk & now & _ & Fresh & ->)
             | (token & first & random & now & F & ->)]].
  - exact IH.
  - rewrite map_app; simpl.
    apply NoDup_app; [exact IH | repeat constructor; intros [] |].
    intros a I [<- | []].
    apply in_map_iff in I as (row & E & I).
    assert (X : existsb (has_id (Row.id row)) db = true).
    { apply existsb_exists; exists row; split; [exact I|].
      unfold has_id; apply String.eqb_refl. }
    rewrite E in X; simpl in Fresh; congruence.
  - now rewrite map_id_mark_paid.
Qed.

(** Stored download tokens are tokens. *)
Lemma reachable_download_tokens db row d :
  reachable cfg db -> In row db -> Row.download_token row = Some d ->
  is_token d.
Proof.
  intros R I D.
  assert (F : Forall (fun row => forall d, Row.download_token row = Some d ->
                                           is_token d) db).
  { apply reachable_Forall; [discriminate | | exact R].
    intros first r token random now Pf Pr t.
    unfold mark_paid_row; destruct (has_flow_token token r); [|apply Pr].
    simpl; intros [= <-]; now apply or_mint_is_token. }
  rewrite Forall_forall in F; eapply F; eauto.
Qed.

End Steps.

End ReachFacts.

(** X4. In every reachable table each row is pending (1) with no download
    token and no paid timestamp, or paid (2) with a non-empty download
    token and a paid timestamp; and its email passes [is_valid_email] and
    is already stripped and lowered. *)
Theorem reachable_rows_wellformed cfg db :
  reachable cfg db -> Forall row_wellformed db.
Proof.
  apply ReachFacts.reachable_Forall.
  - intros e i co tk now V; unfold row_wellformed; simpl.
    split; [left; auto|].
    split; [tauto|].
    split; [exact V | apply NormalizeFacts.normalize_idem].
  - intros first row token random now _ (C & P & V & N).
    unfold mark_paid_row; destruct (has_flow_token token row);
      [|repeat split; tauto].
    unfold row_wellformed; simpl; split; [|split; [|split]]; auto.
    + right; split; [reflexivity|]; eexists; split; [reflexivity|].
      apply DbFacts.truthy_nonempty, DbFacts.or_mint_truthy.
    + split; [discriminate | intros H; discriminate].
Qed.

(** The sample purchase, confirmed. *)
Lemma reachable_rows_wellformed_witness :
  reachable Sample.cfg Sample.db2 /\ Forall row_wellformed Sample.db2.
Proof.
  assert (R : reachable Sample.cfg Sample.db2).
  { apply (InvFacts.reachable_run [Sample.confirm 7]).
    apply (reachable_step Sample.buy (reachable_init Sample.cfg)). }
  split; [exact R | exact (@reachable_rows_wellformed Sample.cfg Sample.db2 R)].
Defined.

(** X5. The ids of the rows of a reachable table are pairwise different:
    [db_create_order] refuses an id that is there, and nothing else writes
    an id. *)
Theorem reachable_ids_unique cfg db :
  reachable cfg db -> NoDup (map Row.id db).
Proof. apply ReachFacts.reachable_ids. Qed.

(** The sample purchase, confirmed. *)
Lemma reachable_ids_unique_witness :
  reachable Sample.cfg Sample.db2 /\ NoDup (map Row.id Sample.db2).
Proof.
  assert (R : reachable Sample.cfg Sample.db2).
  { apply (InvFacts.reachable_run [Sample.confirm 7]).
    apply (reachable_step Sample.buy (reachable_init Sample.cfg)). }
  split; [exact R | exact (@reachable_ids_unique Sample.cfg Sample.db2 R)].
Defined.

(** X6. Every download token of a reachable table is 32 lowercase hex
    digits: tokens only come from [uuid4().hex] or from a token that was
    already stored. *)
Theorem reachable_download_tokens_are_hex cfg db row d :
  reachable cfg db -> In row db -> Row.download_token row = Some d ->
  is_token d.
Proof.
  intros R I D.
  assert (F : Forall (fun row => forall d, Row.download_token row = Some d ->
                                           is_token d) db).
  { apply (@ReachFacts.reachable_Forall cfg); [discriminate | | exact R].
    intros first r token random now Pf Pr t.
    unfold mark_paid_row; destruct (has_flow_token token r); [|apply Pr].
    simpl; intros [= <-]; now apply ReachFacts.or_mint_is_token. }
  rewrite Forall_forall in F; eapply F; eauto.
Qed.

(** The sample purchase, confirmed, and its token. *)
Lemma reachable_download_tokens_are_hex_witness :
  reachable Sample.cfg Sample.db2
  /\ In (mark_paid_row (Some "T1"%string) Sample.D1 "2026-01-01T00:05:00"
           Sample.order1) Sample.db2
  /\ is_token Sample.D1.
Proof.
  assert (R : reachable Sample.cfg Sample.db2).
  { apply (InvFacts.reachable_run [Sample.confirm 7]).
    apply (reachable_step Sample.buy (reachable_init Sample.cfg)). }
  assert (I : In (mark_paid_row (Some "T1"%string) Sample.D1
                    "2026-01-01T00:05:00" Sample.order1) Sample.db2)
    by (left; vm_compute; reflexivity).
  split; [exact R|]; split; [exact I|].
  apply (@reachable_download_tokens_are_hex Sample.cfg Sample.db2 _ Sample.D1
           R I); reflexivity.
Defined.

(** X7. In a reachable table the paid orders of one gateway token all
    carry the same download token, also when the gateway issued that token
    more than once. *)
Theorem paid_orders_of_one_payment_share_token cfg db row1 row2 :
  reachable cfg db -> In row1 db -> In row2 db ->
  Row.flow_token row1 = Row.flow_token row2 ->
  Row.status row1 = 2 -> Row.status row2 = 2 ->
  Row.download_token row1 = Row.download_token row2.
Proof.
  intros R I1 I2 E S1 S2.
  destruct (InvFacts.reachable_Inv R) as [_ A].
  destruct (@MarkPaidFacts.find_exists _
              (has_flow_token (Some (Row.flow_token row1))) db row1 I1)
    as [first F]; [now apply DbFacts.has_flow_token_true|].
  rewrite (A _ first row1 F I1 eq_refl S1).
  symmetry; apply (A _ first row2 F I2); auto.
Qed.

(** Two purchases for which the gateway issued the same token, then one
    confirmation. *)
Lemma paid_orders_of_one_payment_share_token_witness :
  let calls := [ Sample.buy;
                 PayCreate [("email"%string, Py.PStr "other@x.com")] 3 4
                           "2026-01-01T00:01:00" Sample.created;
                 Sample.confirm 7 ] in
  let db := run Sample.cfg [] calls in
  reachable Sample.cfg db
  /\ exists row1 row2,
       db = [row1; row2]
       /\ Row.email row1 <> Row.email row2
       /\ Row.download_token row1 = Row.download_token row2.
Proof.
  intros calls db.
  assert (R : reachable Sample.cfg db)
    by apply (InvFacts.reachable_run calls (reachable_init Sample.cfg)).
  split; [exact R|].
  assert (E : exists row1 row2,
             db = [row1; row2]
             /\ Row.email row1 <> Row.email row2
             /\ Row.flow_token row1 = Row.flow_token row2
             /\ Row.status row1 = 2 /\ Row.status row2 = 2).
  { eexists; eexists; split; [vm_compute; reflexivity|].
    repeat split; discriminate. }
  destruct E as (row1 & row2 & D & N & T & S1 & S2).
  exists row1, row2; split; [exact D|]; split; [exact N|].
  apply (@paid_orders_of_one_payment_share_token Sample.cfg db row1 row2 R);
    try assumption; rewrite D; simpl; auto.
Defined.

(** ** From the payment to the download *)

(** X8. On a reachable table, a confirmation with status 2 for the gateway
    token of any order queues exactly one mail, to the email of the oldest
    order of that token, whose link ends in a 32-hex-digit download token;
    and a download with that token is let through on the table the
    confirmation leaves. *)
Theorem confirmed_link_opens_download cfg db order reply random now :
  reachable cfg db -> In order db -> status_code reply = inr 2 ->
  let token := Row.flow_token order in
  let out := flow_confirmation cfg db (Some token) reply random now in
  exists oldest d,
    find (has_flow_token (Some token)) db = Some oldest
    /\ is_token d
    /\ queued out = [download_mail cfg (Row.email oldest) d]
    /\ respond (returned (download cfg (orders out) d))
       = download_descriptor cfg.
Proof.
  intros R I S token out.
  destruct (@MarkPaidFacts.find_exists _ (has_flow_token (Some token)) db
              order I) as [oldest F];
    [now apply DbFacts.has_flow_token_true|].
  pose proof (ConfirmationFacts.flow_confirmation_cases
                cfg db (Some token) reply random now) as C.
  cbv zeta in C; fold out in C; rewrite S in C; simpl in C; rewrite F in C.
  destruct C as (_ & O & Q).
  set (d := or_mint (Row.download_token oldest) random) in *.
  assert (Io : In oldest db) by (apply find_some in F; tauto).
  exists oldest, d; split; [exact F|]; split; [|split; [exact Q|]].
  - apply ReachFacts.or_mint_is_token; intros t D.
    eapply ReachFacts.reachable_download_tokens; eauto.
  - assert (R' : reachable cfg (orders out))
      by apply (reachable_step
                  (FlowConfirmation (Some token) reply random now) R).
    destruct (DownloadFacts.download_cases cfg (orders out) d)
      as (_ & _ & _ & ->).
    assert (Im : In (mark_paid_row (Some token) d now oldest) (orders out)).
    { rewrite O; unfold db_mark_paid; now apply in_map. }
    assert (Dm : Row.download_token (mark_paid_row (Some token) d now oldest)
                 = Some d).
    { unfold mark_paid_row.
      apply find_some in F as [_ T]; now rewrite T. }
    destruct (@MarkPaidFacts.find_exists _ (has_download_token d) (orders out)
                _ Im) as [f Ff];
      [now apply DbFacts.has_download_token_true|].
    rewrite Ff; apply find_some in Ff as [If Tf].
    apply DbFacts.has_download_token_true in Tf.
    destruct (InvFacts.reachable_Inv R') as [Co _].
    rewrite Forall_forall in Co.
    destruct (InvFacts.row_consistent_some (Co f If) Tf) as [-> _].
    reflexivity.
Qed.

(** The sample purchase and its confirmation. *)
Lemma confirmed_link_opens_download_witness :
  reachable Sample.cfg Sample.db1
  /\ In Sample.order1 Sample.db1
  /\ status_code Sample.paid = inr 2
  /\ exists d,
       queued (step Sample.cfg Sample.db1 (Sample.confirm 7))
       = [download_mail Sample.cfg "buyer@x.com" d]
       /\ respond (returned (download Sample.cfg Sample.db2 d))
          = download_descriptor Sample.cfg.
Proof.
  assert (R : reachable Sample.cfg Sample.db1)
    by apply (reachable_step Sample.buy (reachable_init Sample.cfg)).
  assert (I : In Sample.order1 Sample.db1) by (left; vm_compute; reflexivity).
  split; [exact R|]; split; [exact I|]; split; [reflexivity|].
  destruct (@confirmed_link_opens_download Sample.cfg Sample.db1 Sample.order1
              Sample.paid 7 "2026-01-01T00:05:00"%string R I eq_refl)
    as (oldest & d & F & _ & Q & D).
  exists d; split; [|exact D].
  assert (E : Row.email oldest = "buyer@x.com"%string).
  { vm_compute in F; injection F as <-; reflexivity. }
  rewrite <- E; exact Q.
Defined.

(** X9. A row that [pay_create] stored is found again: on the table it
    leaves, the lookup by the gateway token gives the order that an earlier
    lookup gave, or else the new order, pending and without download
    token; and no lookup by download token gives anything new. *)
Theorem created_order_is_found
    cfg db payload e random1 random2 now reply data token url :
  Py.get payload "email" = Some (Py.PStr e) ->
  is_valid_email (normalize e) = true ->
  reply = inr data ->
  Py.subscript data "token" = inr (Py.PStr token) ->
  Py.subscript data "url" = inr url ->
  existsb (has_id (Uuid.to_str (Uuid.uuid4 random1))) db = false ->
  let out := pay_create cfg db payload random1 random2 now reply in
  db_get_by_flow_token (orders out) (Some token)
  = match db_get_by_flow_token db (Some token) with
    | Some found => Some found
    | None => Some (Uuid.to_str (Uuid.uuid4 random1), normalize e, 1, None)
    end
  /\ forall d, db_get_by_download_token (orders out) d
               = db_get_by_download_token db d.
Proof.
  intros G V -> T U Fresh out.
  pose proof (CreateFacts.pay_create_cases
                cfg db payload random1 random2 now (inr data)) as C.
  cbv zeta in C; fold out in C.
  rewrite (PayloadFacts.strip_lower_str _ G), V, T, U in C.
  unfold db_create_order in C; simpl in C; rewrite Fresh in C; simpl in C.
  destruct C as (_ & _ & O); rewrite O.
  unfold db_get_by_flow_token, db_get_by_download_token.
  split; [|intros d]; rewrite DbFacts.find_app; simpl.
  - destruct (find (has_flow_token (Some token)) db); [reflexivity|].
    now rewrite String.eqb_refl.
  - now destruct (find (has_download_token d) db).
Qed.

(** The sample purchase on the empty table. *)
Lemma created_order_is_found_witness :
  is_valid_email (normalize "buyer@x.com") = true
  /\ db_get_by_flow_token Sample.db1 (Some "T1"%string)
     = Some ("00000000-0000-4000-8000-000000000001"%string,
             "buyer@x.com"%string, 1, None).
Proof.
  split; [vm_compute; reflexivity|].
  destruct (@created_order_is_found Sample.cfg []
              [("email"%string, Py.PStr "buyer@x.com")] "buyer@x.com"%string
              1 2 "2026-01-01T00:00:00"%string Sample.created
              (Py.PDict [("token"%string, Py.PStr "T1");
                         ("url"%string, Py.PStr "https://gw/pay")])
              "T1"%string (Py.PStr "https://gw/pay"))
    as (H & _);
    [ reflexivity | vm_compute; reflexivity | reflexivity | reflexivity
    | reflexivity | reflexivity | ].
  vm_compute in H |- *; exact H.
Defined.

(** ** Edges of the handlers *)

(** X10. When the request body holds no str under [email], [pay_create]
    never reaches the gateway nor the table: a missing, null or otherwise
    false value is treated as the empty address and answered 400, and any
    other value (a number, [true], a non-empty list or object) raises
    [AttributeError], which the client sees as a 500. *)
Theorem pay_create_without_str_email
    cfg db payload random1 random2 now reply :
  (forall s, Py.get payload "email" <> Some (Py.PStr s)) ->
  let out := pay_create cfg db payload random1 random2 now reply in
  orders out = db /\ sent out = [] /\ queued out = []
  /\ respond (returned out)
     = if Py.truthy (Py.get_default payload "email" Py.PNone)
       then server_error else invalid_input.
Proof.
  intros N out.
  pose proof (CreateFacts.pay_create_cases
                cfg db payload random1 random2 now reply) as C.
  cbv zeta in C; fold out in C.
  pose proof (PayloadFacts.pay_create_queued
                cfg db payload random1 random2 now reply) as Q.
  fold out in Q; clearbody out; revert C.
  unfold Py.get_default, Py.or_else.
  destruct (Py.get payload "email") as [v|] eqn:G.
  - destruct v as [| b | z | s | l | d]; simpl.
    + intros (R & O & S); rewrite R; auto.
    + destruct b; simpl; intros (R & O & S); rewrite R; auto.
    + destruct (z =? 0); simpl; intros (R & O & S); rewrite R; auto.
    + exfalso; now apply (N s).
    + destruct l; simpl; intros (R & O & S); rewrite R; auto.
    + destruct d; simpl; intros (R & O & S); rewrite R; auto.
  - simpl; intros (R & O & S); rewrite R; auto.
Qed.

(** A body whose email is the number 5. *)
Lemma pay_create_without_str_email_witness :
  (forall s, Py.get [("email"%string, Py.PInt 5)] "email"
             <> Some (Py.PStr s))
  /\ (let out := pay_create Sample.cfg Sample.db1
                   [("email"%string, Py.PInt 5)] 3 4 "2026-01-01T00:10:00"
                   Sample.created in
      orders out = Sample.db1 /\ respond (returned out) = server_error).
Proof.
  assert (N : forall s, Py.get [("email"%string, Py.PInt 5)] "email"
                        <> Some (Py.PStr s)) by (intros s; discriminate).
  split; [exact N|].
  destruct (@pay_create_without_str_email Sample.cfg Sample.db1
              [("email"%string, Py.PInt 5)] 3 4 "2026-01-01T00:10:00"%string
              Sample.created N) as (O & _ & _ & R).
  split; [exact O | exact R].
Defined.

(** X11. A webhook call whose form holds no [token] never changes the
    table and never queues a mail, whatever the gateway answers; the status
    is still asked for, with a null token, and [None] is what gets signed
    in its place. *)
Theorem flow_confirmation_without_token cfg db reply random now :
  let out := flow_confirmation cfg db None reply random now in
  orders out = db /\ queued out = []
  /\ (exists request,
        sent out = [request]
        /\ Py.get (params request) "token" = Some Py.PNone
        /\ flow_sign_raw [ ("apiKey"%string, Py.PStr (FLOW_API_KEY cfg));
                           ("token"%string, Py.PNone) ]
           = ("apiKey" ++ FLOW_API_KEY cfg ++ "tokenNone")%string).
Proof.
  intros out.
  pose proof (ConfirmationFacts.flow_confirmation_cases
                cfg db None reply random now) as C.
  cbv zeta in C; fold out in C.
  assert (F : find (has_flow_token None) db = None)
    by (apply DbFacts.find_none_all; reflexivity).
  rewrite F in C.
  assert (H : orders out = db /\ queued out = []).
  { destruct (status_code reply) as [x | code]; [tauto|].
    destruct C as [_ C]; now destruct (code =? 2). }
  destruct H as [O Q]; split; [exact O|]; split; [exact Q|].
  eexists; split; [|split].
  - subst out; unfold flow_confirmation, flow_get_status.
    destruct (status_code reply) as [x | code]; [reflexivity|].
    destruct (code =? 2); [|reflexivity].
    unfold db_get_by_flow_token; rewrite F; reflexivity.
  - reflexivity.
  - reflexivity.
Qed.

(** X12. A confirmation writes only to the rows of the gateway token it
    was called with: every other row is afterwards where it was and what it
    was, and the table has as many rows as before. *)
Theorem flow_confirmation_touches_only_its_token
    cfg db token reply random now i row :
  nth_error db i = Some row ->
  Some (Row.flow_token row) <> token ->
  let out := flow_confirmation cfg db token reply random now in
  nth_error (orders out) i = Some row
  /\ List.length (orders out) = List.length db.
Proof.
  intros H N out.
  pose proof (ConfirmationFacts.flow_confirmation_cases
                cfg db token reply random now) as C.
  cbv zeta in C; fold out in C.
  assert (T : has_flow_token token row = false).
  { apply not_true_is_false; intros T.
    apply DbFacts.has_flow_token_true in T; congruence. }
  assert (M : forall d, nth_error (db_mark_paid db token d now) i = Some row).
  { intros d; unfold db_mark_paid; rewrite nth_error_map, H; simpl.
    unfold mark_paid_row; now rewrite T. }
  destruct (status_code reply) as [x | code];
    [destruct C as (_ & -> & _); auto|].
  destruct C as [_ C]; destruct (code =? 2); [|destruct C as [-> _]; auto].
  destruct (find (has_flow_token token) db); destruct C as [-> _]; auto.
  split; [apply M | apply DbFacts.db_mark_paid_length].
Qed.

(** Two purchases, the second confirmed: the first is left alone. *)
Lemma flow_confirmation_touches_only_its_token_witness :
  let db := run Sample.cfg []
              [ Sample.buy;
                PayCreate [("email"%string, Py.PStr "other@x.com")] 3 4
                  "2026-01-01T00:01:00"
                  (inr (Py.PDict [("token"%string, Py.PStr "T2");
                                  ("url"%string, Py.PStr "https://gw/pay")])) ] in
  nth_error db 0 = Some Sample.order1
  /\ nth_error
       (orders (flow_confirmation Sample.cfg db (Some "T2"%string)
                  Sample.paid 7 "2026-01-01T00:05:00")) 0
     = Some Sample.order1.
Proof.
  intros db.
  assert (H : nth_error db 0 = Some Sample.order1)
    by (vm_compute; reflexivity).
  split; [exact H|].
  apply (@flow_confirmation_touches_only_its_token Sample.cfg db
           (Some "T2"%string) Sample.paid 7 "2026-01-01T00:05:00"%string
           0%nat Sample.order1 H).
  discriminate.
Defined.

(** ** Signing and the form body *)

Module OrderFacts.

Lemma ascii_compare_lt_trans a b c :
  Ascii.compare a b = Lt -> Ascii.compare b c = Lt -> Ascii.compare a c = Lt.
Proof.
  unfold Ascii.compare; rewrite !N.compare_lt_iff; apply N.lt_trans.
Qed.

Lemma compare_lt_trans a : forall b c,
  String.compare a b = Lt -> String.compare b c = Lt ->
  String.compare a c = Lt.
Proof.
  induction a as [|x a IH]; intros [|y b] [|z c]; simpl;
    try discriminate; auto.
  destruct (Ascii.compare x y) eqn:XY; try discriminate.
  - apply Ascii.compare_eq_iff in XY; subst y.
    destruct (Ascii.compare x z); try discriminate; eauto.
  - intros _; destruct (Ascii.compare y z) eqn:YZ; try discriminate.
    + apply Ascii.compare_eq_iff in YZ; subst z; now rewrite XY.
    + intros _; now rewrite (ascii_compare_lt_trans _ _ _ XY YZ).
Qed.

(** The order of str is transitive. *)
Lemma leb_trans a b c :
  String.leb a b = true -> String.leb b c = true -> String.leb a c = true.
Proof.
  unfold String.leb.
  destruct (String.compare a b) eqn:AB; try discriminate; intros _.
  - apply String.compare_eq_iff in AB; now subst b.
  - destruct (String.compare b c) eqn:BC; try discriminate; intros _.
    + apply String.compare_eq_iff in BC; subst c; now rewrite AB.
    + now rewrite (compare_lt_trans _ _ _ AB BC).
Qed.

Lemma same_key (l : list (string * Py.value)) a b :
  NoDup (map fst l) -> In a l -> In b l -> fst a = fst b -> a = b.
Proof.
  induction l as [|x l IH]; simpl; [tauto|].
  intros N; inversion N as [|k ks Nx Nl]; subst.
  intros [-> | Ia] [-> | Ib] E; auto.
  - exfalso; apply Nx; rewrite E; now apply in_map.
  - exfalso; apply Nx; rewrite <- E; now apply in_map.
Qed.

(** Items of distinct keys have one sorted arrangement. *)
Lemma sorted_unique l1 : forall l2,
  StronglySorted key_le l1 -> StronglySorted key_le l2 ->
  NoDup (map fst l1) -> Permutation l1 l2 -> l1 = l2.
Proof.
  induction l1 as [|a l1 IH]; intros l2 S1 S2 N P.
  - apply Permutation_nil in P; now subst.
  - destruct l2 as [|b l2];
      [apply Permutation_sym, Permutation_nil in P; discriminate|].
    inversion S1 as [|a' l1' S1' F1]; subst.
    inversion S2 as [|b' l2' S2' F2]; subst.
    rewrite Forall_forall in F1, F2.
    assert (E : a = b).
    { destruct (Permutation_in a P (or_introl eq_refl)) as [-> | Ia];
        [reflexivity|].
      assert (Ib : In b (a :: l1))
        by (apply (Permutation_in b (Permutation_sym P)); now left).
      destruct Ib as [-> | Ib]; [reflexivity|].
      apply (@same_key (a :: l1)); auto; [now left | now right|].
      apply String.leb_antisym; [now apply F1 | now apply F2]. }
    subst b; f_equal; apply IH; auto.
    + now inversion N.
    + eapply Permutation_cons_inv; eauto.
Qed.

Lemma sorted_items_strongly params : StronglySorted key_le (sorted_items params).
Proof.
  apply Sorted_StronglySorted; [|apply SignFacts.sorted_items_sorted].
  intros a b c; unfold key_le; apply leb_trans.
Qed.

Lemma sorted_items_order params1 params2 :
  NoDup (map fst params1) -> Permutation params1 params2 ->
  sorted_items params1 = sorted_items params2.
Proof.
  intros N P; apply sorted_unique; try apply sorted_items_strongly.
  - eapply Permutation_NoDup; [|exact N].
    apply Permutation_map, Permutation_sym, SignFacts.sorted_items_perm.
  - rewrite SignFacts.sorted_items_perm, P.
    apply Permutation_sym, SignFacts.sorted_items_perm.
Qed.

End OrderFacts.

Module HashFacts.

Lemma be_bytes_length n : forall z, List.length (Hash.be_bytes n z) = n.
Proof.
  induction n as [|n IH]; intros z; simpl; [reflexivity|].
  rewrite length_app, IH; simpl; lia.
Qed.

(** A digest is 32 bytes. *)
Lemma sha256_length msg : List.length (Hash.sha256 msg) = 32%nat.
Proof.
  unfold Hash.sha256; cbv zeta.
  destruct (Hash.blocks _ _ _) as [[[[[[[a b] c] d] e] f] g] h].
  cbn [flat_map]; rewrite !length_app, !be_bytes_length; reflexivity.
Qed.

Lemma hexdigest_length digest :
  String.length (Hash.hexdigest digest) = (2 * List.length digest)%nat.
Proof.
  unfold Hash.hexdigest; rewrite ReachFacts.str_length.
  induction digest as [|b l IH]; [reflexivity|].
  cbn [flat_map List.length]; rewrite length_app, ReachFacts.hex_length, IH.
  lia.
Qed.

Lemma hexdigest_hex digest :
  forallb is_hex_digit (PyStr.chars (Hash.hexdigest digest)) = true.
Proof.
  unfold Hash.hexdigest; rewrite PyStrFacts.chars_str.
  induction digest as [|b l IH]; [reflexivity|].
  cbn [flat_map]; rewrite forallb_app, ReachFacts.hex_all_hex, IH.
  reflexivity.
Qed.

End HashFacts.

(** X13. The signature does not depend on the order in which the
    parameters were put into the dict: two dicts with the same items,
    their keys distinct as in any dict, sign alike under every secret. *)
Theorem flow_sign_ignores_insertion_order params1 params2 secret :
  NoDup (map fst params1) -> Permutation params1 params2 ->
  flow_sign params1 secret = flow_sign params2 secret.
Proof.
  intros N P; unfold flow_sign, flow_sign_raw.
  now rewrite (OrderFacts.sorted_items_order N P).
Qed.

(** Two parameters, either way round. *)
Lemma flow_sign_ignores_insertion_order_witness :
  let params1 := [("token"%string, Py.PStr "T1");
                  ("apiKey"%string, Py.PStr "K")] in
  let params2 := [("apiKey"%string, Py.PStr "K");
                  ("token"%string, Py.PStr "T1")] in
  NoDup (map fst params1) /\ Permutation params1 params2
  /\ flow_sign params1 "secret" = flow_sign params2 "secret".
Proof.
  intros params1 params2.
  assert (N : NoDup (map fst params1)).
  { repeat constructor; simpl; intuition discriminate. }
  assert (P : Permutation params1 params2) by apply perm_swap.
  split; [exact N|]; split; [exact P|].
  apply (@flow_sign_ignores_insertion_order params1 params2
           "secret"%string N P).
Defined.

(** X14. What [flow_sign] returns, when it returns, is 64 lowercase hex
    digits: for every key and every message, as bytes, the hex digest of
    their HMAC-SHA256 is the hex of 32 bytes.  [flow_sign] raises where
    one of its two [encode()] raises, on text that UTF-8 cannot encode;
    this is about the bytes after encoding. *)
Theorem hmac_hexdigest_is_64_hex_digits key msg :
  let signature := Hash.hexdigest (Hash.hmac_sha256 key msg) in
  String.length signature = 64%nat
  /\ forallb is_hex_digit (PyStr.chars signature) = true.
Proof.
  unfold Hash.hmac_sha256; split.
  - rewrite HashFacts.hexdigest_length, HashFacts.sha256_length; reflexivity.
  - apply HashFacts.hexdigest_hex.
Qed.

Module FormFacts.

(** What quoting leaves of one character: unreserved characters, [+], and
    [%] escapes in upper-case hex. *)
Lemma quote_char_chars c :
  forallb (fun x => Url.always_safe x || Ascii.eqb x "+" || Ascii.eqb x "%")
          (Url.quote_char c) = true.
Proof.
  destruct c as [[] [] [] [] [] [] [] []]; vm_compute; reflexivity.
Qed.

Lemma quote_plus_chars s :
  forallb (fun x => Url.always_safe x || Ascii.eqb x "+" || Ascii.eqb x "%")
          (PyStr.chars (Url.quote_plus s)) = true.
Proof.
  unfold Url.quote_plus; rewrite PyStrFacts.chars_str.
  induction (PyStr.chars s) as [|c l IH]; [reflexivity|].
  cbn [flat_map]; now rewrite forallb_app, quote_char_chars, IH.
Qed.

Lemma quoted_not_separator x :
  Url.always_safe x || Ascii.eqb x "+" || Ascii.eqb x "%" = true ->
  x <> "="%char /\ x <> "&"%char /\ is_form_char x = true.
Proof.
  intros H; repeat split.
  - intros ->; vm_compute in H; discriminate.
  - intros ->; vm_compute in H; discriminate.
  - unfold is_form_char; rewrite H; reflexivity.
Qed.

(** A quoted text holds no separator. *)
Lemma quote_plus_counts s :
  let l := PyStr.chars (Url.quote_plus s) in
  count_occ ascii_dec l "="%char = 0%nat
  /\ count_occ ascii_dec l "&"%char = 0%nat
  /\ forallb is_form_char l = true.
Proof.
  intros l; pose proof (quote_plus_chars s) as H; fold l in H.
  clearbody l; induction l as [|x l IH]; [auto|].
  simpl in H; apply andb_true_iff in H as [Hx Hl].
  destruct (quoted_not_separator _ Hx) as (N1 & N2 & F).
  destruct (IH Hl) as (C1 & C2 & C3).
  rewrite !count_occ_cons_neq by assumption.
  simpl; rewrite F, C3; auto.
Qed.

Lemma item_counts (kv : string * Py.value) :
  let l := PyStr.chars (Url.quote_plus (fst kv) ++ "="
                        ++ Url.quote_plus (Py.to_str (snd kv)))%string in
  count_occ ascii_dec l "="%char = 1%nat
  /\ count_occ ascii_dec l "&"%char = 0%nat
  /\ forallb is_form_char l = true.
Proof.
  intros l; subst l; rewrite !PyStrFacts.chars_app.
  destruct (quote_plus_counts (fst kv)) as (A1 & A2 & A3).
  destruct (quote_plus_counts (Py.to_str (snd kv))) as (B1 & B2 & B3).
  cbv zeta in *.
  rewrite !count_occ_app, !forallb_app, A1, A2, A3, B1, B2, B3.
  repeat split.
Qed.

Lemma join_counts (l : list string) :
  (forall s, In s l ->
     count_occ ascii_dec (PyStr.chars s) "="%char = 1%nat
     /\ count_occ ascii_dec (PyStr.chars s) "&"%char = 0%nat
     /\ forallb is_form_char (PyStr.chars s) = true) ->
  let body := PyStr.chars (Py.join "&" l) in
  count_occ ascii_dec body "="%char = List.length l
  /\ count_occ ascii_dec body "&"%char = pred (List.length l)
  /\ forallb is_form_char body = true.
Proof.
  induction l as [|s l IH]; intros H; [repeat split|].
  destruct (H s (or_introl eq_refl)) as (S1 & S2 & S3).
  destruct l as [|s' l]; [simpl; auto|].
  destruct IH as (I1 & I2 & I3); [intros x Hx; apply H; now right|].
  cbv zeta in *.
  change (Py.join "&" (s :: s' :: l))
    with (s ++ "&" ++ Py.join "&" (s' :: l))%string.
  rewrite !PyStrFacts.chars_app, !count_occ_app, !forallb_app.
  rewrite S1, S2, S3, I1, I2, I3; simpl; auto.
Qed.

End FormFacts.

(** X15. The form body that [urlencode] builds has exactly one [=] per
    parameter and one [&] between two parameters, whatever the keys and
    the values hold, and is otherwise made of unreserved characters, [+]
    and [%] escapes: no key or value can add a parameter to the body. *)
Theorem urlencode_separators params :
  let body := PyStr.chars (Url.urlencode params) in
  count_occ ascii_dec body "="%char = List.length params
  /\ count_occ ascii_dec body "&"%char = pred (List.length params)
  /\ forallb is_form_char body = true.
Proof.
  unfold Url.urlencode.
  rewrite <- (length_map
                (fun kv : string * Py.value =>
                   (Url.quote_plus (fst kv) ++ "="
                    ++ Url.quote_plus (Py.to_str (snd kv)))%string) params).
  apply FormFacts.join_counts.
  intros s I; apply in_map_iff in I as (kv & <- & _).
  apply FormFacts.item_counts.
Qed.

(** ** Settings, mail and health *)

Module SettingsFacts.

Import Settings.

Lemma drop_leading_head c l :
  match drop_leading c l with [] => True | x :: _ => x <> c end.
Proof.
  induction l as [|x l IH]; simpl; [exact I|].
  destruct (Ascii.eqb x c) eqn:E; [exact IH|].
  now apply Ascii.eqb_neq.
Qed.

Lemma drop_leading_idem c l :
  drop_leading c (drop_leading c l) = drop_leading c l.
Proof.
  induction l as [|x l IH]; simpl; [reflexivity|].
  destruct (Ascii.eqb x c) eqn:E; [exact IH|].
  simpl; now rewrite E.
Qed.

(** What [rstrip("/")] returns does not end in a slash. *)
Lemma rstrip_slash_end s : ~ ends_with "/" (rstrip_slash s).
Proof.
  unfold ends_with, rstrip_slash; rewrite PyStrFacts.chars_str.
  intros [l E].
  pose proof (drop_leading_head "/" (rev (PyStr.chars s))) as H.
  apply (f_equal (@rev ascii)) in E.
  rewrite rev_involutive, rev_app_distr in E; simpl in E.
  rewrite E in H; now apply H.
Qed.

Lemma rstrip_slash_idem s : rstrip_slash (rstrip_slash s) = rstrip_slash s.
Proof.
  unfold rstrip_slash.
  now rewrite PyStrFacts.chars_str, rev_involutive, drop_leading_idem.
Qed.

(** The settings of a module that loaded. *)
Lemma load_fields env cfg mail :
  load env = inr (cfg, mail) ->
  FLOW_API_URL cfg
  = rstrip_slash (getenv env "FLOW_API_URL" "https://www.flow.cl/api")
  /\ PUBLIC_BASE_URL cfg = rstrip_slash (getenv env "PUBLIC_BASE_URL" "")
  /\ DOWNLOAD_BASE_URL cfg
     = rstrip_slash (getenv env "DOWNLOAD_BASE_URL" (PUBLIC_BASE_URL cfg))
  /\ PRODUCT_DRIVE_URL cfg = PyStr.strip (getenv env "PRODUCT_DRIVE_URL" "")
  /\ EMAIL_PROVIDER mail
     = PyStr.lower (PyStr.strip (or_smtp (getenv env "EMAIL_PROVIDER" "smtp")))
  /\ Py.int_of_str (getenv env "SMTP_PORT" "587") = inr (SMTP_PORT mail).
Proof.
  unfold load; cbv zeta.
  destruct (Py.int_of_str (getenv env "SMTP_PORT" "587")) as [e | port];
    cbn [Py.bind Py.ret]; [discriminate|].
  intros [= <- <-]; cbn [FLOW_API_URL PUBLIC_BASE_URL DOWNLOAD_BASE_URL
                         PRODUCT_DRIVE_URL EMAIL_PROVIDER SMTP_PORT].
  repeat split.
Qed.

(** The provider as the module computes it, by what the environment holds. *)
Lemma provider_cases env :
  PyStr.lower (PyStr.strip (or_smtp (getenv env "EMAIL_PROVIDER" "smtp")))
  = match lookup env "EMAIL_PROVIDER" with
    | Some v => if PyStr.truthy v then normalize v else "smtp"%string
    | None => "smtp"%string
    end.
Proof.
  unfold getenv, or_smtp.
  destruct (lookup env "EMAIL_PROVIDER") as [v|]; [|reflexivity].
  destruct (PyStr.truthy v); reflexivity.
Qed.

End SettingsFacts.

(** X16. Whatever the environment holds, the three base URLs of a module
    that loaded do not end in a slash, so the paths that the handlers
    append to them start at exactly one slash. *)
Theorem base_urls_have_no_trailing_slash env cfg mail :
  Settings.load env = inr (cfg, mail) ->
  ~ Settings.ends_with "/" (FLOW_API_URL cfg)
  /\ ~ Settings.ends_with "/" (PUBLIC_BASE_URL cfg)
  /\ ~ Settings.ends_with "/" (DOWNLOAD_BASE_URL cfg).
Proof.
  intros L; destruct (@SettingsFacts.load_fields _ _ _ L) as (-> & -> & -> & _).
  repeat split; apply SettingsFacts.rstrip_slash_end.
Qed.

(** A public base URL given with two slashes at its end. *)
Lemma base_urls_have_no_trailing_slash_witness :
  exists cfg mail,
    Settings.load [("PUBLIC_BASE_URL"%string, "https://shop.example//"%string)]
    = inr (cfg, mail)
    /\ PUBLIC_BASE_URL cfg = "https://shop.example"%string
    /\ ~ Settings.ends_with "/" (DOWNLOAD_BASE_URL cfg).
Proof.
  eexists; eexists.
  assert (L : Settings.load
                [("PUBLIC_BASE_URL"%string, "https://shop.example//"%string)]
              = inr (_, _)) by (vm_compute; reflexivity).
  split; [exact L|]; split; [reflexivity|].
  apply (@base_urls_have_no_trailing_slash _ _ _ L).
Defined.

(** X17. When [DOWNLOAD_BASE_URL] is not set, the download links are built
    on the public base URL, equal to it character by character. *)
Theorem download_base_defaults_to_public env cfg mail :
  Settings.load env = inr (cfg, mail) ->
  Settings.lookup env "DOWNLOAD_BASE_URL" = None ->
  DOWNLOAD_BASE_URL cfg = PUBLIC_BASE_URL cfg.
Proof.
  intros L N; destruct (@SettingsFacts.load_fields _ _ _ L) as (_ & P & D & _).
  rewrite D; unfold Settings.getenv; rewrite N, P.
  apply SettingsFacts.rstrip_slash_idem.
Qed.

(** Only the public base URL is set. *)
Lemma download_base_defaults_to_public_witness :
  exists cfg mail,
    Settings.load [("PUBLIC_BASE_URL"%string, "https://shop.example/"%string)]
    = inr (cfg, mail)
    /\ DOWNLOAD_BASE_URL cfg = PUBLIC_BASE_URL cfg.
Proof.
  eexists; eexists.
  assert (L : Settings.load
                [("PUBLIC_BASE_URL"%string, "https://shop.example/"%string)]
              = inr (_, _)) by (vm_compute; reflexivity).
  split; [exact L|].
  apply (@download_base_defaults_to_public _ _ _ L); reflexivity.
Defined.

(** X18. The settings fail to load exactly when [SMTP_PORT] is set to a
    text that [int] rejects, and then with the exception of [int]; every
    other variable may be missing or hold any text. *)
Theorem settings_fail_only_on_smtp_port env e :
  Settings.load env = inl e
  <-> exists v, Settings.lookup env "SMTP_PORT" = Some v
                /\ Py.int_of_str v = inl e.
Proof.
  unfold Settings.load; cbv zeta.
  destruct (Settings.lookup env "SMTP_PORT") as [v|] eqn:K.
  - replace (Settings.getenv env "SMTP_PORT" "587") with v
      by (unfold Settings.getenv; now rewrite K).
    destruct (Py.int_of_str v) as [e' | port] eqn:P; cbn [Py.bind Py.ret].
    + split; [intros [= <-]; eauto | intros (v' & [= <-] & P'); congruence].
    + split; [discriminate | intros (v' & [= <-] & P'); congruence].
  - replace (Settings.getenv env "SMTP_PORT" "587") with "587"%string
      by (unfold Settings.getenv; now rewrite K).
    replace (Py.int_of_str "587") with (@inr Py.exn Z 587)
      by (vm_compute; reflexivity).
    cbn [Py.bind Py.ret]; split; [discriminate | intros (v & N & _)];
      discriminate.
Qed.

Module MailFacts.

(** [send_email], by the provider. *)
Lemma send_email_cases mail to_email subject body r :
  let done := Email.send_email mail to_email subject body r in
  if String.eqb (Settings.EMAIL_PROVIDER mail) "resend"
  then Email.attempted done = [Email.resend_request mail to_email subject body]
       /\ exists line, Email.printed done = [line]
  else Email.attempted done = [] /\ Email.printed done = [].
Proof.
  unfold Email.send_email, Email.send_email_via_resend.
  destruct (String.eqb (Settings.EMAIL_PROVIDER mail) "resend"); [|auto].
  destruct r as [message | [code text]]; [simpl; eauto|].
  destruct (300 <=? code); simpl; eauto.
Qed.

Lemma resend_truthy v : normalize v = "resend"%string -> PyStr.truthy v = true.
Proof. destruct v; [discriminate | reflexivity]. Qed.

End MailFacts.

(** X19. With the settings of a module that loaded, a mail task attempts a
    request exactly when [EMAIL_PROVIDER] is set to [resend], in any case
    and with any blanks around it; unset, empty or anything else, the task
    sends nothing and prints nothing.  Each attempt prints one line. *)
Theorem mail_goes_out_only_under_resend env cfg mail task r :
  Settings.load env = inr (cfg, mail) ->
  let done := Email.run_task mail task r in
  (Email.attempted done <> []
   <-> exists v, Settings.lookup env "EMAIL_PROVIDER" = Some v
                 /\ normalize v = "resend"%string)
  /\ List.length (Email.printed done) = List.length (Email.attempted done).
Proof.
  intros L done.
  destruct (@SettingsFacts.load_fields _ _ _ L) as (_ & _ & _ & _ & P & _).
  rewrite SettingsFacts.provider_cases in P.
  pose proof (MailFacts.send_email_cases mail (to_email task) (subject task)
                (body task) r) as C.
  cbv zeta in C; fold (Email.run_task mail task r) in C; fold done in C.
  destruct (String.eqb (Settings.EMAIL_PROVIDER mail) "resend") eqn:E.
  - destruct C as (A & line & Pr); rewrite A, Pr; split; [|reflexivity].
    split; [intros _ | discriminate].
    apply String.eqb_eq in E; rewrite E in P.
    destruct (Settings.lookup env "EMAIL_PROVIDER") as [v|]; [|discriminate].
    destruct (PyStr.truthy v); [eauto | discriminate].
  - destruct C as (A & Pr); rewrite A, Pr; split; [|reflexivity].
    split; [congruence|].
    intros (v & K & N); rewrite K, (MailFacts.resend_truthy _ N), N in P.
    apply String.eqb_neq in E; congruence.
Qed.

(** A provider written with capitals and blanks. *)
Lemma mail_goes_out_only_under_resend_witness :
  exists cfg mail,
    Settings.load [("EMAIL_PROVIDER"%string, " Resend "%string)]
    = inr (cfg, mail)
    /\ forall task r, Email.attempted (Email.run_task mail task r) <> [].
Proof.
  eexists; eexists.
  assert (L : Settings.load [("EMAIL_PROVIDER"%string, " Resend "%string)]
              = inr (_, _)) by (vm_compute; reflexivity).
  split; [exact L|]; intros task r.
  destruct (@mail_goes_out_only_under_resend _ _ _ task r L) as [[_ H] _].
  apply H; exists " Resend "%string; split; reflexivity.
Defined.

(** X20. [health] tells how a paid download is served: where it reports
    [has_product_drive_url] true, a download with the token of a paid
    order redirects to the drive URL, and where it reports false, the
    product file is served. *)
Theorem health_tells_how_downloads_are_served cfg mail db t row :
  find (has_download_token t) db = Some row -> Row.status row = 2 ->
  exists b,
    Py.subscript (health cfg mail) "has_product_drive_url"
    = inr (Py.PBool b)
    /\ respond (returned (download cfg db t))
       = if b then RedirectResponse (PRODUCT_DRIVE_URL cfg)
         else FileResponse (PRODUCT_FILE cfg) "application/zip".
Proof.
  intros F S; exists (PyStr.truthy (PRODUCT_DRIVE_URL cfg)).
  split; [reflexivity|].
  destruct (DownloadFacts.download_cases cfg db t) as (_ & _ & _ & ->).
  rewrite F, S; reflexivity.
Qed.

(** The sample purchase, confirmed: no drive URL, so the file is served. *)
Lemma health_tells_how_downloads_are_served_witness :
  exists row,
    find (has_download_token Sample.D1) Sample.db2 = Some row
    /\ Row.status row = 2
    /\ respond (returned (download Sample.cfg Sample.db2 Sample.D1))
       = FileResponse (PRODUCT_FILE Sample.cfg) "application/zip".
Proof.
  eexists.
  assert (F : find (has_download_token Sample.D1) Sample.db2 = Some _)
    by (vm_compute; reflexivity).
  split; [exact F|]; split; [reflexivity|].
  destruct (@health_tells_how_downloads_are_served Sample.cfg
              {| Settings.EMAIL_PROVIDER := "smtp";
                 Settings.RESEND_API_KEY := "";
                 Settings.FROM_EMAIL := "";
                 Settings.SMTP_HOST := "";
                 Settings.SMTP_PORT := 587;
                 Settings.SMTP_USER := "";
                 Settings.SMTP_PASS := "" |}
              Sample.db2 Sample.D1 _ F eq_refl) as (b & B & R).
  vm_compute in B; injection B as <-; exact R.
Defined.

(** X21. From the payment to the inbox: on a reachable table, with the
    provider [resend], the mail that a confirmation with status 2 queues
    is posted once to Resend, from [FROM_EMAIL] under the bearer key, to
    the email of the oldest order of the token and to nobody else; its
    text ends in the download base URL, [/download/] and the download
    token that the orders of the token now carry. *)
Theorem confirmation_mail_carries_the_link
    cfg mail db order reply random now r :
  reachable cfg db -> In order db -> status_code reply = inr 2 ->
  Settings.EMAIL_PROVIDER mail = "resend"%string ->
  let token := Row.flow_token order in
  let out := flow_confirmation cfg db (Some token) reply random now in
  exists oldest d task request text,
    find (has_flow_token (Some token)) db = Some oldest
    /\ queued out = [task]
    /\ Email.attempted (Email.run_task mail task r) = [request]
    /\ Email.url request = "https://api.resend.com/emails"%string
    /\ Email.headers request
       = [ ("Authorization"%string,
            ("Bearer " ++ Settings.RESEND_API_KEY mail)%string);
           ("Content-Type"%string, "application/json"%string) ]
    /\ Py.subscript (Email.json request) "from"
       = inr (Py.PStr (Settings.FROM_EMAIL mail))
    /\ Py.subscript (Email.json request) "to"
       = inr (Py.PList [Py.PStr (Row.email oldest)])
    /\ Py.subscript (Email.json request) "text"
       = inr (Py.PStr (text ++ DOWNLOAD_BASE_URL cfg ++ "/download/" ++ d))
    /\ is_token d
    /\ forall row, In row (orders out) -> Row.flow_token row = token ->
                   Row.download_token row = Some d.
Proof.
  intros R I S P token out.
  destruct (@MarkPaidFacts.find_exists _ (has_flow_token (Some token)) db
              order I) as [oldest F];
    [now apply DbFacts.has_flow_token_true|].
  pose proof (ConfirmationFacts.flow_confirmation_cases
                cfg db (Some token) reply random now) as C.
  cbv zeta in C; fold out in C; rewrite S in C; simpl in C; rewrite F in C.
  destruct C as (_ & O & Q).
  set (d := or_mint (Row.download_token oldest) random) in *.
  assert (Io : In oldest db) by (apply find_some in F; tauto).
  pose proof (MailFacts.send_email_cases mail (Row.email oldest)
                (subject (download_mail cfg (Row.email oldest) d))
                (body (download_mail cfg (Row.email oldest) d)) r) as M.
  cbv zeta in M; rewrite P in M; cbn [String.eqb] in M.
  change (String.eqb "resend" "resend") with true in M.
  destruct M as (A & _).
  exists oldest, d, (download_mail cfg (Row.email oldest) d),
    (Email.resend_request mail (Row.email oldest)
       (subject (download_mail cfg (Row.email oldest) d))
       (body (download_mail cfg (Row.email oldest) d))),
    ("Gracias por tu compra." ++ LF ++ LF ++ "Descarga aqu" ++ i_acute
     ++ ":" ++ LF)%string.
  split; [exact F|]; split; [exact Q|]; split; [exact A|].
  repeat (split; [reflexivity|]).
  split.
  - apply ReachFacts.or_mint_is_token; intros t D.
    eapply ReachFacts.reachable_download_tokens; eauto.
  - intros row Ir T; rewrite O in Ir.
    now destruct (@MarkPaidFacts.db_mark_paid_rows _ _ _ _ _ Ir T).
Qed.

(** The sample purchase and its confirmation, under [resend]. *)
Lemma confirmation_mail_carries_the_link_witness :
  let mail := {| Settings.EMAIL_PROVIDER := "resend";
                 Settings.RESEND_API_KEY := "re_key";
                 Settings.FROM_EMAIL := "shop@x.com";
                 Settings.SMTP_HOST := "";
                 Settings.SMTP_PORT := 587;
                 Settings.SMTP_USER := "";
                 Settings.SMTP_PASS := "" |} in
  reachable Sample.cfg Sample.db1
  /\ In Sample.order1 Sample.db1
  /\ status_code Sample.paid = inr 2
  /\ exists task request,
       queued (step Sample.cfg Sample.db1 (Sample.confirm 7)) = [task]
       /\ Email.attempted (Email.run_task mail task (inr (200, ""%string)))
          = [request]
       /\ Py.subscript (Email.json request) "to"
          = inr (Py.PList [Py.PStr "buyer@x.com"]).
Proof.
  intros mail.
  assert (R : reachable Sample.cfg Sample.db1)
    by apply (reachable_step Sample.buy (reachable_init Sample.cfg)).
  assert (I : In Sample.order1 Sample.db1) by (left; vm_compute; reflexivity).
  split; [exact R|]; split; [exact I|]; split; [reflexivity|].
  destruct (@confirmation_mail_carries_the_link Sample.cfg mail Sample.db1
              Sample.order1 Sample.paid 7 "2026-01-01T00:05:00"%string
              (inr (200, ""%string)) R I eq_refl eq_refl)
    as (oldest & d & task & request & text & F & Q & A & _ & _ & _ & T & _).
  exists task, request; split; [exact Q|]; split; [exact A|].
  assert (E : Row.email oldest = "buyer@x.com"%string).
  { vm_compute in F; injection F as <-; reflexivity. }
  rewrite <- E; exact T.
Defined.
